(** * Build-log failure triage: a shallow embedding of the pipeline

    The development embeds the deterministic core of
    [resources/lab-1-solutions/04_hybrid_approach.py] and of
    [resources/slackbot/src/slackbot/build_analysis.py]: error detection,
    proximity clustering, budgeted section extraction, categorisation,
    response validation and the deterministic fallback.

    Conventions.
    - A Python [str] is a [string]; a character is a code point below 256
      (the Latin-1 range), on which the tables of [str.isspace] and of the
      [re] classes are written out in full.  Texts with code points above
      255 are outside the model.
    - A Python [int] is a [Z]; [len] is [Z.of_nat] of a length.
    - A function that can raise returns an [option]; [None] is the
      exception. *)

From Stdlib Require Import ZArith List String Ascii Bool Lia Sorted Permutation.
Import ListNotations.

Open Scope string_scope.
Open Scope list_scope.
Open Scope Z_scope.

(* ================================================================== *)
(** * Python primitives *)
(* ================================================================== *)

Module Py.

(** Code point of a character. *)
Definition ord (c : ascii) : N := N_of_ascii c.

Definition in_range (lo hi : N) (c : ascii) : bool :=
  (lo <=? ord c)%N && (ord c <=? hi)%N.

(** [str.isspace] on one character, which is also the class [\s] of
    [re] on [str] patterns: TAB..CR, FS..US, space, NEL and NBSP. *)
Definition isspace (c : ascii) : bool :=
  in_range 9 13 c || in_range 28 32 c
  || (ord c =? 133)%N || (ord c =? 160)%N.

Definition isdigit (c : ascii) : bool := in_range 48 57 c.
Definition isupper (c : ascii) : bool := in_range 65 90 c.
Definition islower (c : ascii) : bool := in_range 97 122 c.

(** The class [\w]: [str.isalnum] or underscore.  Above 127 these are
    the Latin-1 letters and the numeric signs (superscripts and vulgar
    fractions). *)
Definition isword (c : ascii) : bool :=
  isdigit c || isupper c || islower c || (ord c =? 95)%N
  || (ord c =? 170)%N || in_range 178 179 c || (ord c =? 181)%N
  || in_range 185 186 c || in_range 188 190 c
  || in_range 192 214 c || in_range 216 246 c || in_range 248 255 c.

(** Case folding of the ASCII letters, the only letters the patterns
    of the program contain; no other Latin-1 character folds onto an
    ASCII letter. *)
Definition lower (c : ascii) : ascii :=
  if isupper c then ascii_of_N (ord c + 32) else c.

Definition upper (c : ascii) : ascii :=
  if islower c then ascii_of_N (ord c - 32) else c.

(** [len(s)] *)
Definition len (s : string) : Z := Z.of_nat (String.length s).

(** [len(l)] on a list *)
Definition llen {A} (l : list A) : Z := Z.of_nat (List.length l).

(** [s.lstrip()], [s.rstrip()], [s.strip()] *)
Fixpoint lstrip (s : string) : string :=
  match s with
  | String c s' => if isspace c then lstrip s' else s
  | EmptyString => EmptyString
  end.

Fixpoint rstrip (s : string) : string :=
  match s with
  | String c s' =>
      match rstrip s' with
      | EmptyString => if isspace c then EmptyString else String c EmptyString
      | r => String c r
      end
  | EmptyString => EmptyString
  end.

Definition strip (s : string) : string := rstrip (lstrip s).

(** [sep.join(l)] *)
Fixpoint join (sep : string) (l : list string) : string :=
  match l with
  | [] => EmptyString
  | [s] => s
  | s :: l' => String.append s (String.append sep (join sep l'))
  end.

(** [s[:n]] for a literal [n >= 0] *)
Fixpoint prefix (n : nat) (s : string) : string :=
  match n, s with
  | S n', String c s' => String c (prefix n' s')
  | _, _ => EmptyString
  end.

(** [s.startswith(c)] for a one-character [c] *)
Definition startswith (c : ascii) (s : string) : bool :=
  match s with
  | String x _ => Ascii.eqb x c
  | EmptyString => false
  end.

(** [bool(s)] *)
Definition truthy (s : string) : bool :=
  match s with EmptyString => false | _ => true end.

(** [l[:n]]: a negative [n] counts from the end. *)
Definition slice_to {A} (n : Z) (l : list A) : list A :=
  if 0 <=? n then firstn (Z.to_nat n) l
  else firstn (Z.to_nat (llen l + n)) l.

(** [l[i]]: a negative [i] counts from the end; out of range is
    [IndexError]. *)
Definition index {A} (l : list A) (i : Z) : option A :=
  if (0 <=? i) && (i <? llen l) then nth_error l (Z.to_nat i)
  else if (i <? 0) && (- llen l <=? i) then nth_error l (Z.to_nat (llen l + i))
  else None.

(** [min(l)] and [max(l)]; [ValueError] on an empty list. *)
Definition min (l : list Z) : option Z :=
  match l with
  | [] => None
  | x :: l' => Some (fold_left Z.min l' x)
  end.

Definition max (l : list Z) : option Z :=
  match l with
  | [] => None
  | x :: l' => Some (fold_left Z.max l' x)
  end.

(** The newline, as a one-character text. *)
Definition nl : string := String "010"%char EmptyString.

(** [s.split("\n")] *)
Fixpoint split_nl (s : string) : list string :=
  match s with
  | EmptyString => [EmptyString]
  | String c s' =>
      if Ascii.eqb c "010"%char then EmptyString :: split_nl s'
      else match split_nl s' with
           | h :: t => String c h :: t
           | [] => [String c EmptyString]
           end
  end.

End Py.

(* ================================================================== *)
(** * Regular expressions *)
(* ================================================================== *)

(** The fragment of Python's [re] that the program's patterns use.
    Groups only capture, and no pattern of the stages modelled here
    reads a group, so a group is its body.  Every repetition in the
    program ranges over a single-character class ([\s+], [.+], [\S+],
    [[0-?]*], ...); the optional items are [Opt]. *)
Module Re.

Inductive regex : Type :=
| Eps                              (* the empty pattern *)
| Chr (c : ascii)                  (* a literal character *)
| Cls (p : ascii -> bool)          (* a class: [\s], [\d], [.], [[...]] *)
| Many (p : ascii -> bool)         (* greedy [p*] over a class *)
| Wordb                            (* [\b] *)
| Bos                              (* [^] without MULTILINE *)
| Cat (r1 r2 : regex)
| Alt (r1 r2 : regex).

(** A literal word *)
Fixpoint Lit (s : string) : regex :=
  match s with
  | EmptyString => Eps
  | String c s' => Cat (Chr c) (Lit s')
  end.

Definition Many1 (p : ascii -> bool) : regex := Cat (Cls p) (Many p).
Definition Opt (r : regex) : regex := Alt r Eps.     (* greedy [r?] *)

Definition dot (c : ascii) : bool := negb (Ascii.eqb c "010"%char).
Definition nonspace (c : ascii) : bool := negb (Py.isspace c).
Definition one (x : ascii) (c : ascii) : bool := Ascii.eqb c x.

(** A literal or a class matches a character; under IGNORECASE both
    compare modulo case. *)
Definition chr_matches (ic : bool) (c x : ascii) : bool :=
  if ic then Ascii.eqb (Py.lower x) (Py.lower c) else Ascii.eqb x c.

Definition cls_matches (ic : bool) (p : ascii -> bool) (x : ascii) : bool :=
  if ic then p x || p (Py.lower x) || p (Py.upper x) else p x.

(** [\b]: exactly one of the characters around the position is a word
    character; the ends of the text count as non-word. *)
Definition word_before (prev : option ascii) : bool :=
  match prev with Some c => Py.isword c | None => false end.

Definition word_after (s : string) : bool :=
  match s with String c _ => Py.isword c | EmptyString => false end.

Section Matcher.
Context {A : Type}.

(** The rest of a match: [k prev s] continues at the text [s] whose
    previous character is [prev]. *)
Definition cont := option ascii -> string -> option A.

(** Greedy repetition with backtracking: the longest exec first. *)
Fixpoint many (ic : bool) (p : ascii -> bool) (prev : option ascii)
         (s : string) (k : cont) : option A :=
  match s with
  | String x s' =>
      if cls_matches ic p x then
        match many ic p (Some x) s' k with
        | Some r => Some r
        | None => k prev s
        end
      else k prev s
  | EmptyString => k prev s
  end.

(** Backtracking matcher in the order of [re]: the first alternative
    first, the longest repetition first. *)
Fixpoint exec (ic : bool) (r : regex) (prev : option ascii) (s : string)
         (k : cont) {struct r} : option A :=
  match r with
  | Eps => k prev s
  | Chr c =>
      match s with
      | String x s' => if chr_matches ic c x then k (Some x) s' else None
      | EmptyString => None
      end
  | Cls p =>
      match s with
      | String x s' => if cls_matches ic p x then k (Some x) s' else None
      | EmptyString => None
      end
  | Many p => many ic p prev s k
  | Wordb => if xorb (word_before prev) (word_after s) then k prev s else None
  | Bos => match prev with None => k prev s | Some _ => None end
  | Cat r1 r2 => exec ic r1 prev s (fun prev' s' => exec ic r2 prev' s' k)
  | Alt r1 r2 =>
      match exec ic r1 prev s k with
      | Some a => Some a
      | None => exec ic r2 prev s k
      end
  end.
End Matcher.

(** A match that starts at this position: the text left after it and
    the last character before that text. *)
Definition match_here (ic : bool) (r : regex) (prev : option ascii) (s : string)
  : option (option ascii * string) :=
  exec ic r prev s (fun prev' s' => Some (prev', s')).

(** [re.search(r, s)] as a truth value: some position starts a match. *)
Fixpoint search_from (ic : bool) (r : regex) (prev : option ascii) (s : string) : bool :=
  match match_here ic r prev s with
  | Some _ => true
  | None =>
      match s with
      | String x s' => search_from ic r (Some x) s'
      | EmptyString => false
      end
  end.

Definition search (ic : bool) (r : regex) (s : string) : bool :=
  search_from ic r None s.

(** [r.sub("", s)] for a pattern that matches no empty text: the
    leftmost matches are deleted, the scan resuming after each. *)
Fixpoint sub_empty_from (fuel : nat) (r : regex) (prev : option ascii) (s : string) : string :=
  match fuel with
  | O => s
  | S fuel' =>
      match match_here false r prev s with
      | Some (prev', s') =>
          if (String.length s' <? String.length s)%nat
          then sub_empty_from fuel' r prev' s'
          else match s with
               | String x t => String x (sub_empty_from fuel' r (Some x) t)
               | EmptyString => EmptyString
               end
      | None =>
          match s with
          | String x t => String x (sub_empty_from fuel' r (Some x) t)
          | EmptyString => EmptyString
          end
      end
  end.

Definition sub_empty (r : regex) (s : string) : string :=
  sub_empty_from (S (String.length s)) r None s.

End Re.

(* ================================================================== *)
(** * Parsed JSON values *)
(* ================================================================== *)

(** What [json.loads] returns: [None], [bool], [int], [float], [str],
    [list] and [dict].  A [dict] keeps its keys in insertion order and a
    lookup finds the binding of the key. *)
Module Json.

#[warnings="-register-all"]
Inductive value : Type :=
| JNull
| JBool (b : bool)
| JInt (n : Z)
| JFloat (literal : string)
| JStr (s : string)
| JArr (items : list value)
| JObj (members : list (string * value)).

(** [d.get(k)] *)
Fixpoint get (k : string) (d : list (string * value)) : option value :=
  match d with
  | [] => None
  | (k', v) :: d' => if String.eqb k' k then Some v else get k d'
  end.

(** [k in d] *)
Definition has (k : string) (d : list (string * value)) : bool :=
  match get k d with Some _ => true | None => false end.

(** [d[k] = v]: the binding is replaced in place, a new key goes last. *)
Fixpoint set (k : string) (v : value) (d : list (string * value)) : list (string * value) :=
  match d with
  | [] => [(k, v)]
  | (k', v') :: d' => if String.eqb k' k then (k, v) :: d' else (k', v') :: set k v d'
  end.

Definition is_list (v : value) : bool :=
  match v with JArr _ => true | _ => false end.

Definition is_dict (v : value) : bool :=
  match v with JObj _ => true | _ => false end.

End Json.

(* ================================================================== *)
(** * resources/lab-1-solutions/04_hybrid_approach.py *)
(* ================================================================== *)

Module Hybrid.
Import Re Json.

(** Concatenation of a list of patterns. *)
Definition seq (rs : list regex) : regex := fold_right Cat Eps rs.

(** Alternation, the first branch first. *)
Fixpoint alt (rs : list regex) : regex :=
  match rs with
  | [] => Cls (fun _ => false)
  | [r] => r
  | r :: rs' => Alt r (alt rs')
  end.

(** [\x1B[@-_][0-?]*[ -/]*[@-~]] *)
Definition ANSI_RE : regex :=
  seq [Chr "027"%char; Cls (Py.in_range 64 95); Many (Py.in_range 48 63);
       Many (Py.in_range 32 47); Cls (Py.in_range 64 126)].

Definition ERROR_PATTERNS : list regex :=
  [ (* \berror:\s+(.+) *)
    seq [Wordb; Lit "error:"; Many1 Py.isspace; Many1 dot];
    (* \bfatal:\s+(.+) *)
    seq [Wordb; Lit "fatal:"; Many1 Py.isspace; Many1 dot];
    (* \bundefined reference to\s+(.+) *)
    seq [Wordb; Lit "undefined reference to"; Many1 Py.isspace; Many1 dot];
    (* \bundefined symbol:\s+(.+) *)
    seq [Wordb; Lit "undefined symbol:"; Many1 Py.isspace; Many1 dot];
    (* \bld:\s+cannot find\s+(.+) *)
    seq [Wordb; Lit "ld:"; Many1 Py.isspace; Lit "cannot find";
         Many1 Py.isspace; Many1 dot];
    (* \bcannot find\s+(-l\S+|\S+) *)
    seq [Wordb; Lit "cannot find"; Many1 Py.isspace;
         Alt (seq [Lit "-l"; Many1 nonspace]) (Many1 nonspace)];
    (* \bno rule to make target\b.* *)
    seq [Wordb; Lit "no rule to make target"; Wordb; Many dot];
    (* \bcmake error\b[:]?\s*(.+) *)
    seq [Wordb; Lit "cmake error"; Wordb; Opt (Cls (one ":"%char));
         Many Py.isspace; Many1 dot];
    (* \bconfiguration error\b[:]?\s*(.+) *)
    seq [Wordb; Lit "configuration error"; Wordb; Opt (Cls (one ":"%char));
         Many Py.isspace; Many1 dot] ].

(** [[A-Za-z0-9_\-]] *)
Definition libname_char (c : ascii) : bool :=
  Py.isupper c || Py.islower c || Py.isdigit c
  || Ascii.eqb c "_"%char || Ascii.eqb c "-"%char.

(** Category matchers (order matters); compiled without flags. *)
Definition CATEGORY_RULES : list (string * regex) :=
  [ (* \b(ld: )?cannot find\b|\b-l[A-Za-z0-9_\-]+\b *)
    ("linker_missing",
      Alt (seq [Wordb; Opt (Lit "ld: "); Lit "cannot find"; Wordb])
          (seq [Wordb; Lit "-l"; Many1 libname_char; Wordb]));
    (* \bundefined reference\b|\bundefined symbol\b *)
    ("linker_undefined",
      Alt (seq [Wordb; Lit "undefined reference"; Wordb])
          (seq [Wordb; Lit "undefined symbol"; Wordb]));
    (* \bcmake error\b|\bno rule to make target\b|\bconfiguration error\b *)
    ("cmake_config",
      alt [seq [Wordb; Lit "cmake error"; Wordb];
           seq [Wordb; Lit "no rule to make target"; Wordb];
           seq [Wordb; Lit "configuration error"; Wordb]]);
    (* \berror:\b|^\s*\d+\s*errors? generated\b *)
    ("compilation",
      Alt (seq [Wordb; Lit "error:"; Wordb])
          (seq [Bos; Many Py.isspace; Many1 Py.isdigit; Many Py.isspace;
                Lit "error"; Opt (Chr "s"%char); Lit " generated"; Wordb])) ].

Inductive pytype : Type := TList.

Definition SCHEMA : list (string * pytype) :=
  [("root_causes", TList); ("summary", TList)].

Definition isinstance (v : value) (t : pytype) : bool :=
  match t with TList => is_list v end.

Definition strip_ansi (s : string) : string := sub_empty ANSI_RE s.

(** [read_lines] on a file that exists: its lines, ANSI-stripped. *)
Definition read_lines (raw : list string) : list string := map strip_ansi raw.

(** [\bFAILED\b|\bFAILURE\b] and [test|target|build|link] *)
Definition CI_MARKER : regex :=
  Alt (seq [Wordb; Lit "FAILED"; Wordb]) (seq [Wordb; Lit "FAILURE"; Wordb]).
Definition CI_SUBJECT : regex :=
  alt [Lit "test"; Lit "target"; Lit "build"; Lit "link"].

Definition match_error (line : string) : bool :=
  let ls := Py.strip line in
  existsb (fun pat => search true pat ls) ERROR_PATTERNS
  || (search false CI_MARKER ls && search true CI_SUBJECT ls).

(** The loop of [find_error_indices]; [i] is the number of the first
    line of [lines]. *)
Fixpoint find_from (i : Z) (lines : list string) : list Z :=
  match lines with
  | [] => []
  | line :: rest =>
      if match_error line then i :: find_from (i + 1) rest
      else find_from (i + 1) rest
  end.

Definition find_error_indices (lines : list string) : list Z := find_from 1 lines.

(** The loop of [cluster_indices]: [clusters] is [closed ++ [cur]], so
    [cur] is [clusters[-1]] and its last element [clusters[-1][-1]]. *)
Fixpoint cluster_loop (window : Z) (closed : list (list Z)) (cur : list Z)
         (rest : list Z) : list (list Z) :=
  match rest with
  | [] => closed ++ [cur]
  | n :: rest' =>
      if n - last cur 0 <=? window
      then cluster_loop window closed (cur ++ [n]) rest'
      else cluster_loop window (closed ++ [cur]) [n] rest'
  end.

Definition cluster_indices (indices : list Z) (window : Z) : list (list Z) :=
  match indices with
  | [] => []
  | i0 :: rest => cluster_loop window [] [i0] rest
  end.

Definition slice_with_context (lines : list string) (start end_ : Z) : list string :=
  let start := Z.max 1 start - 1 in
  let end_ := Z.min (Py.llen lines) end_ in
  firstn (Z.to_nat (end_ - start)) (skipn (Z.to_nat start) lines).

Record section : Type := mk_section {
  line_number : Z;
  headline : string;
  lines : list string
}.

(** [chunk[: max(1, len(chunk)//2)]] *)
Definition half (chunk : list string) : list string :=
  Py.slice_to (Z.max 1 (Py.llen chunk / 2)) chunk.

(** The loop of [extract_sections] over the clusters still to visit;
    [None] when a cluster raises ([min] of an empty cluster, a head
    line outside the log). *)
Fixpoint extract_loop (log : list string) (ctx max_chars : Z)
         (clusters : list (list Z)) (sections : list section) (total_chars : Z)
  : option (list section * Z) :=
  match clusters with
  | [] => Some (sections, total_chars)
  | c :: clusters' =>
      match Py.min c, Py.max c with
      | Some mn, Some mx =>
          let lo := mn - ctx in
          let hi := mx + ctx in
          let chunk := slice_with_context log lo hi in
          let chunk_text := Py.strip (Py.join Py.nl chunk) in
          let head_line_no := mn in
          match Py.index log (head_line_no - 1) with
          | Some l =>
              let head_line := Py.strip l in
              if total_chars + Py.len chunk_text >? max_chars then
                let truncated := Py.join Py.nl (half chunk) in
                if total_chars + Py.len truncated >? max_chars
                then Some (sections, total_chars)
                else extract_loop log ctx max_chars clusters'
                       (sections ++ [mk_section head_line_no head_line (half chunk)])
                       (total_chars + Py.len truncated)
              else extract_loop log ctx max_chars clusters'
                     (sections ++ [mk_section head_line_no head_line chunk])
                     (total_chars + Py.len chunk_text)
          | None => None
          end
      | _, _ => None
      end
  end.

Definition extract_sections (log : list string) (clusters : list (list Z))
           (ctx max_sections max_chars : Z) : option (list section * Z) :=
  extract_loop log ctx max_chars (Py.slice_to max_sections clusters) [] 0.

Fixpoint first_rule (rules : list (string * regex)) (text : string) : string :=
  match rules with
  | [] => "other"
  | (name, rx) :: rules' => if search false rx text then name else first_rule rules' text
  end.

Definition categorise_section (text : string) : string :=
  first_rule CATEGORY_RULES text.

(** [s.find(c)] as the text from the first [c] on; [None] is -1. *)
Fixpoint from_first (c : ascii) (s : string) : option string :=
  match s with
  | EmptyString => None
  | String x s' => if Ascii.eqb x c then Some s else from_first c s'
  end.

(** The loop of [extract_json_block] from position [start]: the text
    up to the bracket that empties the stack; [None] when the loop
    ends without returning.  The top of [stack] is its head. *)
Fixpoint block_scan (s : string) (stack : list ascii) : option string :=
  match s with
  | EmptyString => None
  | String ch s' =>
      if Ascii.eqb ch "{"%char || Ascii.eqb ch "["%char then
        option_map (String ch)
          (block_scan s' ((if Ascii.eqb ch "{"%char then "}"%char else "]"%char) :: stack))
      else if Ascii.eqb ch "}"%char || Ascii.eqb ch "]"%char then
        match stack with
        | top :: stack' =>
            if Ascii.eqb ch top then
              match stack' with
              | [] => Some (String ch EmptyString)
              | _ => option_map (String ch) (block_scan s' stack')
              end
            else option_map (String ch) (block_scan s' stack)
        | [] => option_map (String ch) (block_scan s' stack)
        end
      else option_map (String ch) (block_scan s' stack)
  end.

Definition extract_json_block (s : string) : string :=
  let start :=
    match from_first "{"%char s with
    | Some t => Some t
    | None => from_first "["%char s
    end in
  match start with
  | None => EmptyString
  | Some t => match block_scan t [] with Some b => b | None => EmptyString end
  end.

(** The checks on one element of [root_causes]. *)
Definition root_cause_ok (rc : value) : bool :=
  match rc with
  | JObj d =>
      if negb (has "cause" d) || negb (has "confidence" d) || negb (has "next_action" d)
      then false
      else match get "evidence" d with
           | Some (JArr []) => false
           | Some (JArr (_ :: _)) => true
           | _ => false
           end
  | _ => false
  end.

Definition valid_schema (obj : value) : bool :=
  match obj with
  | JObj d =>
      forallb (fun kt => match get (fst kt) d with
                         | Some v => isinstance v (snd kt)
                         | None => false
                         end) SCHEMA
      && match get "root_causes" d with
         | Some (JArr rcs) => forallb root_cause_ok rcs
         | _ => true            (* not reached: the loop above returned False *)
         end
  | _ => false
  end.

(** [\berror\b|undefined|cannot find|cmake] *)
Definition EVIDENCE_HINT : regex :=
  alt [seq [Wordb; Lit "error"; Wordb]; Lit "undefined"; Lit "cannot find"; Lit "cmake"].

Definition evidence_entry (line : Z) (snippet : string) : value :=
  JObj [("line", JInt line); ("snippet", JStr snippet)].

(** The evidence loop: the first context line with a hint, at its
    offset in the section. *)
Fixpoint first_hint (line_no offset : Z) (ts : list string) : list value :=
  match ts with
  | [] => []
  | t :: ts' =>
      if search true EVIDENCE_HINT t
      then [evidence_entry (line_no + offset) (Py.prefix 200 (Py.strip t))]
      else first_hint line_no (offset + 1) ts'
  end.

(** [Counter(items)]: the counts in the order of first occurrence. *)
Fixpoint tally (h : string) (counts : list (string * Z)) : list (string * Z) :=
  match counts with
  | [] => [(h, 1)]
  | (k, n) :: counts' =>
      if String.eqb k h then (k, n + 1) :: counts' else (k, n) :: tally h counts'
  end.

Definition Counter (items : list string) : list (string * Z) :=
  fold_left (fun counts h => tally h counts) items [].

(** [most_common(n)]: by decreasing count, equal counts in the order
    first encountered. *)
Fixpoint insert_by_count (x : string * Z) (sorted : list (string * Z)) : list (string * Z) :=
  match sorted with
  | [] => [x]
  | y :: sorted' =>
      if snd x <? snd y then y :: insert_by_count x sorted' else x :: sorted
  end.

Definition most_common (n : nat) (counts : list (string * Z)) : list (string * Z) :=
  firstn n (fold_right insert_by_count [] counts).

Definition NEXT_ACTION : string :=
  "Re-run with stricter prompt or inspect deterministic section.".

(** One entry of [top_causes]. *)
Definition fallback_cause (sections : list section) (cause : string) : value :=
  let sec := find (fun s => String.eqb (headline s) cause) sections in
  let ev := match sec with
            | Some s => first_hint (line_number s) 0 (lines s)
            | None => []
            end in
  JObj [("cause", JStr (Py.prefix 120 cause));
        ("evidence",
          JArr match sec with
               | Some s =>
                   match ev with
                   | [] => [evidence_entry (line_number s) (Py.prefix 200 (headline s))]
                   | _ => ev
                   end
               | None => []
               end);
        ("confidence", JStr "low");
        ("next_action", JStr NEXT_ACTION)].

Definition FALLBACK_SUMMARY : list value :=
  [JStr "AI output invalid; using deterministic fallback.";
   JStr "Inspect sections.json for evidence.";
   JStr "Re-run with a JSON-enforcing model or smaller prompt."].

(** The object built in [run] when the response does not parse. *)
Definition fallback (sections : list section) : value :=
  let heads := filter Py.truthy (map headline sections) in
  let freq := most_common 3 (Counter heads) in
  JObj [("root_causes", JArr (map (fun cf => fallback_cause sections (fst cf)) freq));
        ("summary", JArr FALLBACK_SUMMARY)].

(** The object written when the backend returns nothing. *)
Definition NO_SUMMARY : value :=
  JObj [("root_causes", JArr []);
        ("summary", JArr [JStr "No AI summary available.";
                          JStr "See deterministic sections.";
                          JStr "Check CI artefacts."])].

(** The presentation loop of [run] reads the first evidence entry of
    the first three root causes: [e0.get] needs a [dict], and the
    slice [e0.get('snippet', '')[:160]] a [str] or a [list].  [false]
    is an exception. *)
Definition evidence_prints (rc : value) : bool :=
  match rc with
  | JObj d =>
      match get "evidence" d with
      | Some (JArr (JObj e :: _)) =>
          match get "snippet" e with
          | None | Some (JStr _) | Some (JArr _) => true
          | Some _ => false
          end
      | Some (JArr (_ :: _)) => false
      | _ => true
      end
  | _ => false
  end.

Definition presents (obj : value) : bool :=
  match obj with
  | JObj d =>
      match get "root_causes" d with
      | Some (JArr rcs) => forallb evidence_prints (firstn 3 rcs)
      | _ => true
      end
  | _ => false
  end.

(** The integer options of the command line. *)
Record args : Type := mk_args {
  context : Z;
  cluster_window : Z;
  max_sections : Z;
  max_chars : Z
}.

Definition default_args : args := mk_args 5 8 10 12000.

(** How an invocation ends: an exit status, or an exception that
    leaves [run]. *)
Inductive completion : Type :=
| Exit (status : Z)
| Raised.

(** What an invocation leaves behind: its completion, the object
    written to [hybrid_result.json] if any, and the prompts sent to
    the backend, in order. *)
Record outcome : Type := mk_outcome {
  completed : completion;
  result : option value;
  backend_calls : list string
}.

Section Pipeline.

(** The prompt text plays no part below; [make_prompt] after
    [extract_build_info] is a function of the sections and the log. *)
Variable make_prompt : list section -> list string -> string.

(** The backend: the text it returns, or [None] when the call
    raises (the [ollama] client does not catch transport errors). *)
Variable call_backend : string -> option string.

(** [json.loads]: the parsed value, or the [JSONDecodeError]. *)
Variable json_loads : string -> value + string.

Definition parse_llm_response (raw : string) : value * string :=
  if negb (Py.truthy raw) then (JObj [], "empty response")
  else
    let candidate := Py.strip raw in
    let candidate :=
      if negb (Py.startswith "{"%char candidate || Py.startswith "["%char candidate)
      then extract_json_block candidate
      else candidate in
    if negb (Py.truthy candidate) then (JObj [], "no json block found")
    else
      match json_loads candidate with
      | inr e => (JObj [], String.append "json decode error: " e)
      | inl obj =>
          if negb (valid_schema obj) then (JObj [], "schema validation failed")
          else (obj, "")
      end.

(** The sections of a log, as [run] computes them. *)
Definition sections_of (a : args) (log : list string) : option (list section * Z) :=
  let err_idxs := find_error_indices log in
  let clusters := cluster_indices err_idxs (cluster_window a) in
  extract_sections log clusters (context a) (max_sections a) (max_chars a).

(** [run]; [file] is the log file, [None] when the path does not
    exist ([read_lines] then exits with status 1). *)
Definition run (a : args) (file : option (list string)) : outcome :=
  match file with
  | None => mk_outcome (Exit 1) None []
  | Some raw_lines =>
      let log := read_lines raw_lines in
      match sections_of a log with
      | None => mk_outcome Raised None []
      | Some ([], _) => mk_outcome (Exit 0) None []
      | Some (sections, _) =>
          let prompt := make_prompt sections log in
          match call_backend prompt with
          | None => mk_outcome Raised None [prompt]
          | Some raw =>
              if negb (Py.truthy raw)
              then mk_outcome (Exit 1) (Some NO_SUMMARY) [prompt]
              else
                let (obj, err) := parse_llm_response raw in
                let obj := if Py.truthy err then fallback sections else obj in
                if presents obj
                then mk_outcome (Exit 0) (Some obj) [prompt]
                else mk_outcome Raised None [prompt]
          end
      end
  end.

End Pipeline.

End Hybrid.

(* ================================================================== *)
(** * resources/slackbot/src/slackbot/build_analysis.py *)
(* ================================================================== *)

Module BuildAnalysis.
Import Re Json.

(** The module repeats the tables of the lab solution verbatim. *)
Definition ANSI_RE : regex := Hybrid.ANSI_RE.
Definition ERROR_PATTERNS : list regex := Hybrid.ERROR_PATTERNS.
Definition CATEGORY_RULES : list (string * regex) := Hybrid.CATEGORY_RULES.

Definition strip_ansi (text : string) : string := sub_empty ANSI_RE text.

(** [l[a:b]]; a negative bound counts from the end. *)
Definition slice {A} (l : list A) (a b : Z) : list A :=
  let norm i := if i <? 0 then Z.max 0 (Py.llen l + i) else Z.min i (Py.llen l) in
  firstn (Z.to_nat (norm b - norm a)) (skipn (Z.to_nat (norm a)) l).

Record error_entry : Type := mk_error {
  line_number : Z;
  error_line : string;
  context : list string
}.

(** The loop of [find_error_lines_with_context]; [i] is the index of
    the first line of [rest] in [lines]. *)
Fixpoint find_loop (lines : list string) (context_lines : Z) (i : Z)
         (rest : list string) : list error_entry :=
  match rest with
  | [] => []
  | line :: rest' =>
      let line_clean := strip_ansi line in
      if existsb (fun pattern => search true pattern line_clean) ERROR_PATTERNS then
        let start := Z.max 0 (i - context_lines) in
        let end_ := Z.min (Py.llen lines) (i + context_lines + 1) in
        mk_error (i + 1) (Py.strip line_clean)
                 (map (fun l => Py.strip (strip_ansi l)) (slice lines start end_))
        :: find_loop lines context_lines (i + 1) rest'
      else find_loop lines context_lines (i + 1) rest'
  end.

Definition find_error_lines_with_context (lines : list string) (context_lines : Z)
  : list error_entry :=
  find_loop lines context_lines 0 lines.

(** [s.lower()] on the Latin-1 range: the ASCII capitals and the
    accented capitals except the multiplication sign. *)
Definition lower_char (c : ascii) : ascii :=
  if Py.isupper c || (Py.in_range 192 222 c && negb (Py.ord c =? 215)%N)
  then ascii_of_N (Py.ord c + 32) else c.

Fixpoint lower (s : string) : string :=
  match s with
  | EmptyString => EmptyString
  | String c s' => String (lower_char c) (lower s')
  end.

Definition category_of (error : error_entry) : string :=
  Hybrid.first_rule CATEGORY_RULES (lower (error_line error)).

(** [categories[category].append(error)] on a [defaultdict(list)]. *)
Fixpoint bucket_add (category : string) (error : error_entry)
         (categories : list (string * list error_entry)) : list (string * list error_entry) :=
  match categories with
  | [] => [(category, [error])]
  | (k, v) :: categories' =>
      if String.eqb k category then (k, v ++ [error]) :: categories'
      else (k, v) :: bucket_add category error categories'
  end.

Definition categorize_errors (errors : list error_entry) : list (string * list error_entry) :=
  fold_left (fun categories error => bucket_add (category_of error) error categories)
            errors [].

(** The result and the prompts handed to the model, in order; the
    result is [None] when an exception leaves the function. *)
Record outcome : Type := mk_outcome {
  result : option value;
  llm_calls : list string
}.

Section Pipeline.

(** The prompt text plays no part below. *)
Variable create_focused_prompt : list error_entry -> string.

(** [analyze_with_llm] catches what the client raises and returns a
    parsed value, whatever JSON the model produced. *)
Variable analyze_with_llm : string -> value.

Definition analyze_build_log (log_content : string) : outcome :=
  let lines := Py.split_nl log_content in
  let errors := find_error_lines_with_context lines 5 in
  match errors with
  | [] =>
      mk_outcome
        (Some (JObj [("root_causes", JArr []);
                     ("summary", JArr [JStr "No errors found in build log"]);
                     ("error_count", JInt 0)]))
        []
  | _ =>
      let categories := categorize_errors errors in
      let prompt := create_focused_prompt errors in
      match analyze_with_llm prompt with
      | JObj analysis =>
          let analysis := set "error_count" (JInt (Py.llen errors)) analysis in
          let analysis :=
            set "categories"
                (JObj (map (fun kv => (fst kv, JInt (Py.llen (snd kv)))) categories))
                analysis in
          mk_outcome (Some (JObj analysis)) [prompt]
      | _ => mk_outcome None [prompt]   (* item assignment raises *)
      end
  end.

End Pipeline.

End BuildAnalysis.

(* ================================================================== *)
(** * Vocabulary of the properties *)
(* ================================================================== *)

Module Props.
Import Json Hybrid.

(** Line [n] of the log is flagged by the detector. *)
Definition flagged (log : list string) (n : Z) : Prop :=
  In n (find_error_indices log).

(** Two line numbers are members of one cluster. *)
Definition same_cluster (clusters : list (list Z)) (a b : Z) : Prop :=
  exists c, In c clusters /\ In a c /\ In b c.

(** The clusters of a log for a window. *)
Definition clusters_of (log : list string) (window : Z) : list (list Z) :=
  cluster_indices (find_error_indices log) window.

(** The clusters of [x :: xs] by recursion on the list: [x] joins the
    cluster of its successor when the gap is within the window. *)
Fixpoint chain (w x : Z) (xs : list Z) : list (list Z) :=
  match xs with
  | [] => [[x]]
  | y :: ys =>
      if y - x <=? w then
        match chain w y ys with
        | c :: cs => (x :: c) :: cs
        | [] => [[x]]
        end
      else [x] :: chain w y ys
  end.

(** The characters of the sections as they are emitted: the context
    lines of each, joined by newlines. *)
Definition section_chars (s : section) : Z := Py.len (Py.join Py.nl (lines s)).

Definition emitted_chars (sections : list section) : Z :=
  fold_right (fun s n => section_chars s + n) 0 sections.

(** The shape [valid_schema] accepts. *)
Definition root_cause_shape (rc : value) : Prop :=
  exists d e0 es,
    rc = JObj d /\ has "cause" d = true /\ has "confidence" d = true
    /\ has "next_action" d = true /\ get "evidence" d = Some (JArr (e0 :: es)).

Definition schema_shape (obj : value) : Prop :=
  exists d rcs summary,
    obj = JObj d /\ get "root_causes" d = Some (JArr rcs)
    /\ get "summary" d = Some (JArr summary) /\ Forall root_cause_shape rcs.

(** The root causes of a result. *)
Definition root_causes_of (obj : value) : list value :=
  match obj with
  | JObj d => match get "root_causes" d with Some (JArr rcs) => rcs | _ => [] end
  | _ => []
  end.

(** The evidence entries of a root cause. *)
Definition evidence_of (rc : value) : list value :=
  match rc with
  | JObj d => match get "evidence" d with Some (JArr es) => es | _ => [] end
  | _ => []
  end.

(** An evidence entry whose [line] is a line number of the log. *)
Definition cites_real_line (log : list string) (e : value) : Prop :=
  exists d n, e = JObj d /\ get "line" d = Some (JInt n) /\ 1 <= n <= Py.llen log.

(** The characters the extractor counts for a section: its context
    text with the white space around it stripped. *)
Definition counted_chars (s : section) : Z :=
  Py.len (Py.strip (Py.join Py.nl (lines s))).

Definition counted_total (sections : list section) : Z :=
  fold_right (fun s n => counted_chars s + n) 0 sections.


(** Every match of the pattern, taken without flags, consumes a
    lower-case ASCII letter. *)
Fixpoint needs_lower (r : Re.regex) : bool :=
  match r with
  | Re.Chr c => Py.islower c
  | Re.Cat r1 r2 => needs_lower r1 || needs_lower r2
  | Re.Alt r1 r2 => needs_lower r1 && needs_lower r2
  | _ => false
  end.

(** A text without lower-case ASCII letters. *)
Fixpoint no_lowercase (s : string) : Prop :=
  match s with
  | EmptyString => True
  | String c s' => Py.islower c = false /\ no_lowercase s'
  end.

End Props.

Import Json Hybrid Props.

(* ================================================================== *)
(** * Example logs and responses *)
(* ================================================================== *)

(** A log with failures on its lines 1, 5 and 10. *)
Definition log_1_5_10 : list string :=
  ["a.c:3:1: error: expected ';'"; "ok"; "ok"; "ok"; "ld: cannot find -lfoo";
   "ok"; "ok"; "ok"; "ok"; "undefined reference to `bar'"].

(** A response whose only root cause has null [cause], [confidence]
    and [next_action]. *)
Definition response_with_nulls : value :=
  JObj [("root_causes",
          JArr [JObj [("cause", JNull); ("confidence", JNull); ("next_action", JNull);
                      ("evidence", JArr [JObj [("line", JInt 1); ("snippet", JStr "x")]])]]);
        ("summary", JArr [])].

(** Its text; [json_text] writes the double quotes of a JSON text that
    is spelt here with apostrophes. *)
Fixpoint json_text (s : string) : string :=
  match s with
  | EmptyString => EmptyString
  | String c s' =>
      String (if Ascii.eqb c "'"%char then "034"%char else c) (json_text s')
  end.

Definition response_with_nulls_text : string :=
  json_text "{'root_causes': [{'cause': null, 'confidence': null, 'next_action': null, 'evidence': [{'line': 1, 'snippet': 'x'}]}], 'summary': []}".

(** A fully populated response. *)
Definition well_formed_response : value :=
  JObj [("root_causes",
          JArr [JObj [("cause", JStr "missing library foo");
                      ("evidence", JArr [JObj [("line", JInt 5);
                                               ("snippet", JStr "ld: cannot find -lfoo")]]);
                      ("confidence", JStr "high");
                      ("next_action", JStr "install libfoo")]]);
        ("summary", JArr [JStr "link failed"; JStr "libfoo missing"; JStr "install it"])].

(** A cluster of real line numbers: not empty, each number a line. *)
Definition real_cluster (log : list string) (c : list Z) : Prop :=
  c <> [] /\ Forall (fun n => 1 <= n <= Py.llen log) c.


(** The shape of a root cause of the deterministic fallback: one
    evidence entry, confidence [low], the generic next action. *)
Definition fallback_cause_shape (rc : value) : Prop :=
  exists cause line snippet,
    rc = JObj [("cause", JStr cause);
               ("evidence", JArr [evidence_entry line snippet]);
               ("confidence", JStr "low");
               ("next_action", JStr NEXT_ACTION)].

(** A log of one line, a compiler error. *)
Definition one_error_log : list string := ["a.c:1:1: error: x"].

(** A log whose only failure is on the last of its three lines. *)
Definition late_error_log : list string := ["cc -c a.c"; "cc -c b.c"; "b.c:7:2: error: y"].


(** Stand-ins for the collaborators in the examples: a prompt renderer,
    backends that answer with a fixed text, and a [json.loads] that
    parses one text and rejects every other. *)
Definition prompt_stub : list section -> list string -> string := fun _ _ => "PROMPT".

Definition backend_says (text : string) : string -> option string := fun _ => Some text.

Definition loads_only (text : string) (obj : value) : string -> value + string :=
  fun s => if String.eqb s text then inl obj
           else inr "Expecting value: line 1 column 1 (char 0)".

(** A well-formed response whose evidence cites line 999. *)
Definition response_citing_999 : value :=
  JObj [("root_causes",
          JArr [JObj [("cause", JStr "compile error");
                      ("evidence", JArr [JObj [("line", JInt 999); ("snippet", JStr "x")]]);
                      ("confidence", JStr "high");
                      ("next_action", JStr "fix a.c")]]);
        ("summary", JArr [JStr "a"; JStr "b"; JStr "c"])].

Definition response_citing_999_text : string :=
  json_text "{'root_causes': [{'cause': 'compile error', 'evidence': [{'line': 999, 'snippet': 'x'}], 'confidence': 'high', 'next_action': 'fix a.c'}], 'summary': ['a', 'b', 'c']}".

(** A log whose failure line sits between two lines of ten spaces. *)
Definition padded_error_log : list string :=
  ["          "; "a.c:1:1: error: x"; "          "].

(** The text of a log: its lines joined by newlines. *)
Definition text_of (log : list string) : string := Py.join Py.nl log.

(** A CMake failure as CMake prints it. *)
Definition cmake_line : string := "CMake Error at CMakeLists.txt:12 (find_package):".

(** A line of [n] spaces, and a log whose failure line follows such a
    line. *)
Fixpoint spaces (n : nat) : string :=
  match n with
  | O => EmptyString
  | S n' => String " "%char (spaces n')
  end.

Definition indented_log (n : nat) : list string := [spaces n; "a.c:1:1: error: x"].

(* ================================================================== *)
(** * Further vocabulary *)
(* ================================================================== *)

(** Consecutive members of a cluster are at most [w] apart. *)
Fixpoint gaps_within (w : Z) (c : list Z) : Prop :=
  match c with
  | x :: (y :: _) as rest => y - x <= w /\ gaps_within w rest
  | _ => True
  end.

(** Each cluster starts more than [w] after the end of the one before. *)
Fixpoint split_between (w : Z) (clusters : list (list Z)) : Prop :=
  match clusters with
  | c1 :: (c2 :: _) as rest => hd 0 c2 - last c1 0 > w /\ split_between w rest
  | _ => True
  end.

(** The head line number of a cluster as the extractor takes it. *)
Definition head_of (c : list Z) : Z :=
  match Py.min c with Some m => m | None => 0 end.

(** What the extractor puts in a section of a log: a flagged head line,
    its stripped text as the headline, and context lines of the log. *)
Definition section_of_log (log : list string) (s : section) : Prop :=
  flagged log (line_number s)
  /\ (exists l, nth_error log (Z.to_nat (line_number s - 1)) = Some l
                /\ headline s = Py.strip l)
  /\ headline s <> ""
  /\ lines s <> []
  /\ incl (lines s) log.

(** [c in s] for a character. *)
Fixpoint contains (c : ascii) (s : string) : bool :=
  match s with
  | EmptyString => false
  | String x s' => Ascii.eqb x c || contains c s'
  end.

(** The bracket that closes an opening bracket, as [extract_json_block]
    pushes it. *)
Definition closer_of (o : ascii) : ascii :=
  if Ascii.eqb o "{"%char then "}"%char else "]"%char.

Definition is_opener (c : ascii) : bool := Ascii.eqb c "{"%char || Ascii.eqb c "["%char.
Definition is_closer (c : ascii) : bool := Ascii.eqb c "}"%char || Ascii.eqb c "]"%char.

(** A text whose brackets are well nested: plain characters and
    bracketed blocks of such texts. *)
Inductive nested : string -> Prop :=
| nested_nil : nested EmptyString
| nested_char (c : ascii) (s : string) :
    is_opener c = false -> is_closer c = false -> nested s -> nested (String c s)
| nested_block (o : ascii) (body s : string) :
    is_opener o = true -> nested body -> nested s ->
    nested (String o (String.append body (String (closer_of o) s))).

(** The count a [Counter] holds for a key; 0 for a key it does not
    hold. *)
Fixpoint count_of (k : string) (counts : list (string * Z)) : Z :=
  match counts with
  | [] => 0
  | (k', n) :: counts' => if String.eqb k' k then n else count_of k counts'
  end.

(** The number of occurrences of a text in a list. *)
Definition occurrences (items : list string) (h : string) : Z :=
  Z.of_nat (count_occ string_dec items h).

(** The headlines the fallback ranks, and their ranking. *)
Definition ranked_headlines (sections : list section) : list string :=
  filter Py.truthy (map headline sections).

Definition ranking (sections : list section) : list (string * Z) :=
  most_common 3 (Counter (ranked_headlines sections)).

(** A root cause the fallback builds from a section: the headline cut
    to 120 characters, and one evidence entry whose snippet has at most
    200 characters and whose line lies between the head line number and
    that number plus the last offset in the section's context. *)
Definition fallback_cause_of (s : section) (rc : value) : Prop :=
  exists line snippet,
    rc = JObj [("cause", JStr (Py.prefix 120 (headline s)));
               ("evidence", JArr [evidence_entry line snippet]);
               ("confidence", JStr "low");
               ("next_action", JStr NEXT_ACTION)]
    /\ Py.len (Py.prefix 120 (headline s)) <= 120
    /\ Py.len snippet <= 200
    /\ line_number s <= line <= line_number s + Z.max 0 (Py.llen (lines s) - 1).

(** An evidence entry the presentation loop can print: an object whose
    [snippet], when present, is a text or a list. *)
Definition printable (e : value) : Prop :=
  exists d, e = JObj d
            /\ (get "snippet" d = None
                \/ (exists s, get "snippet" d = Some (JStr s))
                \/ (exists l, get "snippet" d = Some (JArr l))).

(** A schema-valid response whose evidence entry is a number. *)
Definition response_with_bare_evidence : value :=
  JObj [("root_causes",
          JArr [JObj [("cause", JStr "compile error");
                      ("evidence", JArr [JInt 1]);
                      ("confidence", JStr "high");
                      ("next_action", JStr "fix a.c")]]);
        ("summary", JArr [])].

Definition response_with_bare_evidence_text : string :=
  json_text "{'root_causes': [{'cause': 'compile error', 'evidence': [1], 'confidence': 'high', 'next_action': 'fix a.c'}], 'summary': []}".

(* ================================================================== *)
(** * Further functions of 04_hybrid_approach.py *)
(* ================================================================== *)

(** [buckets[key].append(x)] on a [defaultdict(list)]: a new key goes
    last. *)
Fixpoint append_to_bucket {A} (key : string) (x : A)
         (buckets : list (string * list A)) : list (string * list A) :=
  match buckets with
  | [] => [(key, [x])]
  | (k, v) :: buckets' =>
      if String.eqb k key then (k, v ++ [x]) :: buckets'
      else (k, v) :: append_to_bucket key x buckets'
  end.

(** The category of a section: the category of its joined context. *)
Definition section_category (s : section) : string :=
  categorise_section (Py.join Py.nl (lines s)).

Definition categorise_sections (sections : list section) : list (string * list section) :=
  fold_left (fun buckets s => append_to_bucket (section_category s) s buckets)
            sections [].

(** [counts = {k: len(v) for k, v in cat.items() if v}] in [run]. *)
Definition category_counts (sections : list section) : list (string * Z) :=
  map (fun kv => (fst kv, Py.llen (snd kv)))
      (filter (fun kv => match snd kv with [] => false | _ => true end)
              (categorise_sections sections)).

(** The names a category can take. *)
Definition CATEGORY_NAMES : list string :=
  ["linker_missing"; "linker_undefined"; "cmake_config"; "compilation"; "other"].

(** The sum of the counts of a histogram. *)
Definition histogram_total (counts : list (string * Z)) : Z :=
  fold_right (fun kn n => snd kn + n) 0 counts.

(** The members of a list with a given key, in order. *)
Definition with_key {A} (key : A -> string) (k : string) (xs : list A) : list A :=
  filter (fun x => String.eqb (key x) k) xs.

(** What the buckets of a grouping by [key] hold after the items
    [seen]: distinct names, and under each name the items of that key,
    in order, at least one. *)
Definition grouped {A} (key : A -> string) (seen : list A)
           (buckets : list (string * list A)) : Prop :=
  NoDup (map fst buckets)
  /\ (forall k v, In (k, v) buckets -> v <> [] /\ v = with_key key k seen)
  /\ (forall x, In x seen -> In (key x) (map fst buckets)).


(** A log of five lines with failures on lines 2 and 4. *)
Definition two_error_text : string :=
  text_of ["cc -c a.c"; "a.c:3:1: error: expected ';'"; "cc -c b.c";
           "CMake Error at CMakeLists.txt:12 (find_package):"; "done"].

(** The escape character that opens an ANSI sequence. *)
Definition ESC : ascii := "027"%char.

(** The ASCII capitals of a text turned into small letters. *)
Fixpoint fold_case (s : string) : string :=
  match s with
  | EmptyString => EmptyString
  | String c s' => String (Py.lower c) (fold_case s')
  end.

(** A line is matched by one of [ERROR_PATTERNS], as [match_error]
    tests it. *)
Definition pattern_flagged (line : string) : bool :=
  existsb (fun pat => Re.search true pat (Py.strip line)) ERROR_PATTERNS.

(** Whether a match attempt found a match. *)
Definition matched {A} (o : option A) : bool :=
  match o with Some _ => true | None => false end.

(** The text a trailing group [(.+)] captures: the longest run of
    characters other than the newline. *)
Fixpoint take_dots (s : string) : string :=
  match s with
  | String c s' => if Re.dot c then String c (take_dots s') else EmptyString
  | EmptyString => EmptyString
  end.

(** [m.group(1)] for a match of [prefix\s*(.+)] under IGNORECASE that
    starts at this position: the white space is taken greedily and
    given back until the group has a character. *)
Definition group_here (prefix : Re.regex) (prev : option ascii) (s : string)
  : option string :=
  Re.exec true (Re.Cat prefix (Re.Many Py.isspace)) prev s
          (fun _ s' => match take_dots s' with
                       | EmptyString => None
                       | g => Some g
                       end).

(** [re.search(pat, line, re.I)] for such a pattern, as the group of the
    leftmost match; [None] when nothing matches. *)
Fixpoint group_from (prefix : Re.regex) (prev : option ascii) (s : string)
  : option string :=
  match group_here prefix prev s with
  | Some g => Some g
  | None =>
      match s with
      | String x s' => group_from prefix (Some x) s'
      | EmptyString => None
      end
  end.

Definition search_group (prefix : Re.regex) (line : string) : option string :=
  group_from prefix None line.

(** The [pairs] of [extract_build_info], in the order of the dict; each
    pattern is the prefix written here followed by [\s*(.+)]. *)
Definition BUILD_INFO_PAIRS : list (string * Re.regex) :=
  [ (* \bcomponent:\s*(.+) *)
    ("component", seq [Re.Wordb; Re.Lit "component:"]);
    (* \bbuild id:\s*(.+) *)
    ("build_id", seq [Re.Wordb; Re.Lit "build id:"]);
    (* \bcompiler:\s*(.+) *)
    ("compiler", seq [Re.Wordb; Re.Lit "compiler:"]);
    (* \bbranch:\s*(.+) *)
    ("branch", seq [Re.Wordb; Re.Lit "branch:"]);
    (* \brunner:\s*(.+) *)
    ("runner", seq [Re.Wordb; Re.Lit "runner:"]) ].

(** [info.get(k)] and [k in info] on the [info] dict. *)
Fixpoint info_get (k : string) (info : list (string * string)) : option string :=
  match info with
  | [] => None
  | (k', v) :: info' => if String.eqb k' k then Some v else info_get k info'
  end.

Definition info_has (k : string) (info : list (string * string)) : bool :=
  matched (info_get k info).

(** The inner loop of [extract_build_info] on one line: a key that is
    not in [info] yet and whose pattern matches is added, last. *)
Definition scan_line (pairs : list (string * Re.regex)) (line : string)
           (info : list (string * string)) : list (string * string) :=
  fold_left (fun info kp =>
               match search_group (snd kp) line with
               | Some g =>
                   if info_has (fst kp) info then info
                   else info ++ [(fst kp, Py.strip g)]
               | None => info
               end)
            pairs info.

Definition extract_build_info (lines : list string) : list (string * string) :=
  fold_left (fun info line => scan_line BUILD_INFO_PAIRS line info)
            (Py.slice_to 40 lines) [].

(** The pattern of a key. *)
Fixpoint pattern_of (k : string) (pairs : list (string * Re.regex)) : option Re.regex :=
  match pairs with
  | [] => None
  | (k', pat) :: pairs' => if String.eqb k' k then Some pat else pattern_of k pairs'
  end.

(** The value a line gives for a pattern. *)
Definition value_in (pat : Re.regex) (line : string) : option string :=
  option_map Py.strip (search_group pat line).

(** The value the first line that matches gives. *)
Fixpoint first_value (pat : Re.regex) (lines : list string) : option string :=
  match lines with
  | [] => None
  | line :: lines' =>
      match value_in pat line with
      | Some v => Some v
      | None => first_value pat lines'
      end
  end.

(** [x or y] for an optional text: [None] and the empty text are
    falsy. *)
Definition or_else (x : option string) (y : string) : string :=
  match x with
  | Some s => if Py.truthy s then s else y
  | None => y
  end.

(** [os.getenv(name, default)] *)
Definition getenv_or (getenv : string -> option string) (name default : string) : string :=
  match getenv name with Some v => v | None => default end.

(** [choose_backend_env_cli]: the command-line values, then the
    environment, then the defaults. *)
Definition choose_backend_env_cli (args_backend args_model : option string)
           (getenv : string -> option string) : string * string :=
  let backend :=
    or_else args_backend (BuildAnalysis.lower (getenv_or getenv "HYBRID_BACKEND" "ollama")) in
  let model :=
    or_else args_model
            (getenv_or getenv "HYBRID_MODEL"
                       (if String.eqb backend "ollama" then "codellama:7b" else "gpt-4o")) in
  (backend, model).

(** The three clients: each takes the prompt and the model and returns
    the text, or [None] when it raises. *)
Record clients : Type := mk_clients {
  call_ollama : string -> string -> option string;
  call_openai : string -> string -> option string;
  call_anthropic : string -> string -> option string
}.

(** [call_backend]: the dispatch on the backend name; an unknown name
    gives the empty text. *)
Definition call_backend (c : clients) (prompt backend model : string) : option string :=
  if String.eqb backend "ollama" then call_ollama c prompt model
  else if String.eqb backend "openai" then call_openai c prompt model
  else if String.eqb backend "anthropic" then call_anthropic c prompt model
  else Some EmptyString.

(** An invocation with the backend chosen from the command line and the
    environment. *)
Definition run_cli (make_prompt : list section -> list string -> string)
           (c : clients) (json_loads : string -> value + string)
           (args_backend args_model : option string) (getenv : string -> option string)
           (a : args) (file : option (list string)) : outcome :=
  let (backend, model) := choose_backend_env_cli args_backend args_model getenv in
  run make_prompt (fun prompt => call_backend c prompt backend model) json_loads a file.

(** Clients that always answer with a valid empty analysis, and an
    environment with no variable set. *)
Definition helpful_clients : clients :=
  mk_clients (fun _ _ => Some "{}") (fun _ _ => Some "{}") (fun _ _ => Some "{}").

Definition empty_env : string -> option string := fun _ => None.
(* ================================================================== *)
(** * Clustering *)
(* ================================================================== *)

Lemma last_snoc (pre : list Z) (x d : Z) : last (pre ++ [x]) d = x.
Proof.
  induction pre as [|p pre IH]; [reflexivity|].
  simpl. destruct (pre ++ [x]) eqn:E; [destruct pre; discriminate|exact IH].
Qed.

Lemma chain_nonempty w x xs : chain w x xs <> [].
Proof.
  destruct xs as [|y ys]; simpl; [discriminate|].
  destruct (y - x <=? w); [destruct (chain w y ys)|]; discriminate.
Qed.

(** The loop computes [chain], glued behind what it has accumulated. *)
Lemma cluster_loop_chain w rest :
  forall closed pre x,
    cluster_loop w closed (pre ++ [x]) rest =
    closed ++ match chain w x rest with
              | c :: cs => (pre ++ c) :: cs
              | [] => [pre]
              end.
Proof.
  induction rest as [|n rest IH]; intros closed pre x; simpl.
  - reflexivity.
  - rewrite last_snoc. destruct (n - x <=? w).
    + rewrite IH. pose proof (chain_nonempty w n rest) as Hne.
      destruct (chain w n rest) as [|c cs]; [congruence|].
      now rewrite <- app_assoc.
    + change [n] with ([] ++ [n]). rewrite (IH (closed ++ [pre ++ [x]]) [] n).
      pose proof (chain_nonempty w n rest) as Hne.
      destruct (chain w n rest) as [|c cs]; [congruence|].
      now rewrite <- app_assoc.
Qed.

Lemma cluster_indices_chain w x xs : cluster_indices (x :: xs) w = chain w x xs.
Proof.
  unfold cluster_indices. change [x] with ([] ++ [x]).
  rewrite (cluster_loop_chain w xs [] [] x). simpl.
  pose proof (chain_nonempty w x xs). now destruct (chain w x xs).
Qed.

Lemma chain_concat w xs : forall x, List.concat (chain w x xs) = x :: xs.
Proof.
  induction xs as [|y ys IH]; intros x; simpl; [reflexivity|].
  specialize (IH y). destruct (y - x <=? w).
  - destruct (chain w y ys) as [|c cs]; simpl in *; [discriminate|now rewrite IH].
  - simpl. now rewrite IH.
Qed.

Lemma chain_clusters_nonempty w xs : forall x, Forall (fun c => c <> []) (chain w x xs).
Proof.
  induction xs as [|y ys IH]; intros x; simpl.
  - constructor; [discriminate|constructor].
  - specialize (IH y). destruct (y - x <=? w).
    + destruct (chain w y ys) as [|c cs]; inversion IH; subst;
        constructor; (discriminate || assumption || constructor).
    + constructor; [discriminate|assumption].
Qed.

(** The clusters of a list, concatenated, are the list, and none is
    empty. *)
Lemma cluster_indices_concat xs w :
  List.concat (cluster_indices xs w) = xs
  /\ Forall (fun c => c <> []) (cluster_indices xs w).
Proof.
  destruct xs as [|x xs]; [split; [reflexivity|constructor]|].
  rewrite cluster_indices_chain. split.
  - apply chain_concat.
  - apply chain_clusters_nonempty.
Qed.

(** C9. For every list of integers and every window, sorted or not, the
    clusters of [cluster_indices], concatenated in order, are the input
    list, and no cluster is empty: clustering cuts the input into
    contiguous runs without dropping, duplicating or reordering. *)
Theorem cluster_indices_partition (xs : list Z) (w : Z) :
  List.concat (cluster_indices xs w) = xs
  /\ Forall (fun c => c <> []) (cluster_indices xs w).
Proof.
  destruct xs as [|x xs]; [split; [reflexivity|constructor]|].
  rewrite cluster_indices_chain. split.
  - apply chain_concat.
  - apply chain_clusters_nonempty.
Qed.

(** The detector numbers the flagged lines in increasing order. *)
Lemma find_from_sorted lines :
  forall i, StronglySorted Z.lt (find_from i lines)
            /\ Forall (fun n => i <= n) (find_from i lines).
Proof.
  induction lines as [|line rest IH]; intros i; simpl.
  - split; constructor.
  - destruct (IH (i + 1)) as [Hs Hf]. destruct (match_error line).
    + split; constructor; try assumption; try lia;
        (eapply Forall_impl; [|exact Hf]; simpl; intros; lia).
    + split; [assumption|].
      eapply Forall_impl; [|exact Hf]; simpl; intros; lia.
Qed.

Lemma find_error_indices_sorted log : StronglySorted Z.lt (find_error_indices log).
Proof. apply find_from_sorted. Qed.

Lemma sorted_head_lt x xs a : StronglySorted Z.lt (x :: xs) -> In a xs -> x < a.
Proof.
  intros Hs Ha. inversion Hs as [|? ? _ Hf]; subst.
  rewrite Forall_forall in Hf. now apply Hf.
Qed.

Lemma sorted_tail x xs : StronglySorted Z.lt (x :: xs) -> StronglySorted Z.lt xs.
Proof. intros Hs. now inversion Hs. Qed.

Lemma chain_members w x xs c a : In c (chain w x xs) -> In a c -> In a (x :: xs).
Proof.
  intros Hc Ha. rewrite <- (chain_concat w xs x). apply in_concat. eauto.
Qed.

(** Putting [x] in front keeps two later numbers together. *)
Lemma same_cluster_step w x y ys a b :
  same_cluster (chain w y ys) a b -> same_cluster (chain w x (y :: ys)) a b.
Proof.
  intros (c & Hc & Ha & Hb). simpl. destruct (y - x <=? w).
  - destruct (chain w y ys) as [|c0 cs]; [contradiction|].
    destruct Hc as [<-|Hc].
    + exists (x :: c0). simpl. auto.
    + exists c. simpl. auto.
  - exists c. simpl. auto.
Qed.

(** A number within the window of the head is in the head's cluster. *)
Lemma chain_head_near w xs :
  forall x b, StronglySorted Z.lt (x :: xs) -> In b (x :: xs) -> b - x <= w ->
              exists c cs, chain w x xs = c :: cs /\ In x c /\ In b c.
Proof.
  induction xs as [|y ys IH]; intros x b Hs Hb Hw.
  - destruct Hb as [<-|[]]. exists [x], []. simpl. auto.
  - pose proof (sorted_head_lt _ _ y Hs (or_introl eq_refl)) as Hxy.
    pose proof (sorted_tail _ _ Hs) as Hs'.
    destruct Hb as [<-|Hb].
    + simpl. destruct (y - x <=? w).
      * pose proof (chain_nonempty w y ys).
        destruct (chain w y ys) as [|c cs]; [congruence|].
        exists (x :: c), cs. simpl. auto.
      * exists [x], (chain w y ys). simpl. auto.
    + assert (Hyb : y <= b).
      { destruct Hb as [<-|Hb]; [lia|].
        pose proof (sorted_head_lt _ _ b Hs' Hb). lia. }
      destruct (IH y b Hs' Hb ltac:(lia)) as (c & cs & Hch & Hy & Hbc).
      simpl. replace (y - x <=? w) with true by (symmetry; apply Z.leb_le; lia).
      rewrite Hch. exists (x :: c), cs. simpl. auto.
Qed.

Lemma chain_near w xs :
  forall x a b, StronglySorted Z.lt (x :: xs) -> In a (x :: xs) -> In b (x :: xs) ->
                a <= b -> b - a <= w -> same_cluster (chain w x xs) a b.
Proof.
  induction xs as [|y ys IH]; intros x a b Hs Ha Hb Hab Hw.
  - destruct Ha as [<-|[]]. destruct Hb as [<-|[]]. exists [x]. simpl. auto.
  - destruct Ha as [<-|Ha].
    + destruct (chain_head_near w (y :: ys) x b Hs Hb Hw) as (c & cs & Hch & Hx & Hbc).
      exists c. rewrite Hch. simpl. auto.
    + pose proof (sorted_head_lt _ _ a Hs Ha) as Hxa.
      destruct Hb as [<-|Hb]; [lia|].
      apply same_cluster_step. apply IH; try assumption. now apply sorted_tail in Hs.
Qed.

(** Two flagged numbers with nothing flagged between them and a gap
    wider than the window are split. *)
Lemma chain_far w xs :
  forall x a b, StronglySorted Z.lt (x :: xs) -> In a (x :: xs) -> In b (x :: xs) ->
                a < b -> (forall m, In m (x :: xs) -> ~ (a < m < b)) -> b - a > w ->
                ~ same_cluster (chain w x xs) a b.
Proof.
  induction xs as [|y ys IH]; intros x a b Hs Ha Hb Hab Hgap Hw.
  - destruct Ha as [<-|[]]. destruct Hb as [<-|[]]. lia.
  - pose proof (sorted_head_lt _ _ y Hs (or_introl eq_refl)) as Hxy.
    pose proof (sorted_tail _ _ Hs) as Hs'.
    destruct Ha as [<-|Ha].
    + (* [a] is the head, so [b] is its successor *)
      destruct Hb as [<-|Hb]; [lia|].
      assert (b = y) as ->.
      { destruct Hb as [<-|Hb]; [reflexivity|].
        pose proof (sorted_head_lt _ _ b Hs' Hb).
        exfalso. apply (Hgap y); [simpl; auto|lia]. }
      simpl. replace (y - x <=? w) with false by (symmetry; apply Z.leb_gt; lia).
      intros (c & [<-|Hc] & Hxc & Hyc).
      * destruct Hyc as [->|[]]. lia.
      * pose proof (chain_members _ _ _ _ _ Hc Hxc) as Hin.
        destruct Hin as [->|Hin]; [lia|].
        pose proof (sorted_head_lt _ _ x Hs' Hin). lia.
    + pose proof (sorted_head_lt _ _ a Hs Ha) as Hxa.
      destruct Hb as [<-|Hb]; [lia|].
      assert (Hrec : ~ same_cluster (chain w y ys) a b).
      { apply IH; try assumption. intros m Hm. apply Hgap. now right. }
      simpl. destruct (y - x <=? w).
      * destruct (chain w y ys) as [|c0 cs] eqn:Hch.
        { intros (c & [<-|[]] & [->|[]] & _). lia. }
        intros (c & [<-|Hc] & Hac & Hbc).
        -- apply Hrec. exists c0. simpl.
           destruct Hac as [->|Hac]; [lia|]. destruct Hbc as [->|Hbc]; [lia|]. auto.
        -- apply Hrec. exists c. simpl. auto.
      * intros (c & [<-|Hc] & Hac & Hbc).
        -- destruct Hac as [->|[]]. lia.
        -- apply Hrec. exists c. auto.
Qed.

Lemma same_cluster_sym clusters a b : same_cluster clusters a b -> same_cluster clusters b a.
Proof. intros (c & Hc & Ha & Hb). exists c. auto. Qed.

(** C2, as amended. For every log and window, two flagged line numbers
    at distance at most [window] are members of one cluster; and two
    flagged line numbers with no flagged line between them, at distance
    greater than [window], are members of no common cluster. *)
Theorem clusters_near_joined_adjacent_far_split
        (log : list string) (window a b : Z)
        (Ha : flagged log a) (Hb : flagged log b) :
  (Z.abs (a - b) <= window -> same_cluster (clusters_of log window) a b)
  /\ (a < b -> (forall m, flagged log m -> ~ (a < m < b)) -> b - a > window ->
      ~ same_cluster (clusters_of log window) a b).
Proof.
  unfold flagged, clusters_of in *.
  pose proof (find_error_indices_sorted log) as Hs.
  destruct (find_error_indices log) as [|x xs]; [contradiction|].
  rewrite cluster_indices_chain. split.
  - intros Hw. destruct (Z.le_ge_cases a b).
    + apply chain_near; try assumption; lia.
    + apply same_cluster_sym. apply chain_near; try assumption; lia.
  - intros Hab Hgap Hw. now apply chain_far.
Qed.

Lemma clusters_near_joined_adjacent_far_split_witness :
  same_cluster (clusters_of log_1_5_10 8) 1 5
  /\ ~ same_cluster (clusters_of log_1_5_10 3) 1 5.
Proof.
  split.
  - apply (clusters_near_joined_adjacent_far_split log_1_5_10 8 1 5);
      [vm_compute; auto | vm_compute; auto | vm_compute; discriminate].
  - apply (clusters_near_joined_adjacent_far_split log_1_5_10 3 1 5);
      [vm_compute; auto | vm_compute; auto | lia | | lia].
    intros m Hm. vm_compute in Hm. destruct Hm as [<-|[<-|[<-|[]]]]; lia.
Defined.

(** C2, as stated, fails: lines 1 and 10 are 9 apart, more than the
    window of 8, and are chained into one cluster through line 5. *)
Lemma clusters_far_apart_chained :
  flagged log_1_5_10 1 /\ flagged log_1_5_10 10 /\ Z.abs (1 - 10) > 8
  /\ same_cluster (clusters_of log_1_5_10 8) 1 10.
Proof.
  split; [vm_compute; auto|]. split; [vm_compute; auto|]. split; [reflexivity|].
  exists [1; 5; 10]. vm_compute. auto 10.
Qed.

(* ================================================================== *)
(** * Response validation *)
(* ================================================================== *)

Lemma root_cause_ok_shape rc : root_cause_ok rc = true <-> root_cause_shape rc.
Proof.
  unfold root_cause_ok, root_cause_shape. split.
  - destruct rc as [| | | | | |d]; try discriminate.
    destruct (has "cause" d) eqn:Hc, (has "confidence" d) eqn:Hf,
             (has "next_action" d) eqn:Hn; simpl; try discriminate.
    destruct (get "evidence" d) as [[| | | | |[|e0 es]|]|] eqn:He; try discriminate.
    intros _. exists d, e0, es. auto.
  - intros (d & e0 & es & -> & Hc & Hf & Hn & He).
    now rewrite Hc, Hf, Hn, He.
Qed.

Lemma valid_schema_shape obj : valid_schema obj = true <-> schema_shape obj.
Proof.
  unfold valid_schema, schema_shape. split.
  - destruct obj as [| | | | | |d]; try discriminate. simpl.
    destruct (get "root_causes" d) as [[| | | | |rcs|]|] eqn:Hr; try discriminate.
    destruct (get "summary" d) as [[| | | | |summary|]|] eqn:Hs; try discriminate.
    simpl. intros Hall. exists d, rcs, summary.
    split; [reflexivity|]. split; [exact Hr|]. split; [exact Hs|].
    apply Forall_forall. intros rc Hin. apply root_cause_ok_shape.
    rewrite forallb_forall in Hall. now apply Hall.
  - intros (d & rcs & summary & -> & Hr & Hs & Hall). simpl.
    rewrite Hr, Hs. simpl. apply forallb_forall. intros rc Hin.
    apply root_cause_ok_shape. rewrite Forall_forall in Hall. now apply Hall.
Qed.

Lemma parse_llm_response_validates json_loads raw obj :
  parse_llm_response json_loads raw = (obj, "") -> valid_schema obj = true.
Proof.
  unfold parse_llm_response.
  destruct (negb (Py.truthy raw)); [discriminate|].
  match goal with |- context [if negb (Py.truthy ?c) then _ else _] =>
    destruct (negb (Py.truthy c)); [discriminate|] end.
  match goal with |- context [json_loads ?c] => destruct (json_loads c) as [o|e] end;
    [|discriminate].
  destruct (valid_schema o) eqn:Hv; simpl; [|discriminate].
  now intros [= <-].
Qed.

(** C3, as amended. The validator accepts a parsed response exactly when
    it is a top-level object whose [root_causes] and [summary] are
    arrays and every element of [root_causes] is an object that has the
    keys [cause], [confidence] and [next_action], whatever their values,
    null included, and a non-empty [evidence] array; and a response
    that [parse_llm_response] returns without an error has that shape. *)
Theorem validator_accepts_schema_shape :
  (forall obj, valid_schema obj = true <-> schema_shape obj)
  /\ (forall json_loads raw obj,
         parse_llm_response json_loads raw = (obj, "") -> schema_shape obj).
Proof.
  split.
  - apply valid_schema_shape.
  - intros json_loads raw obj H. apply valid_schema_shape.
    exact (parse_llm_response_validates json_loads raw obj H).
Qed.

Lemma validator_accepts_schema_shape_witness : schema_shape response_with_nulls.
Proof.
  apply (proj2 validator_accepts_schema_shape
               (fun _ => inl response_with_nulls) response_with_nulls_text).
  vm_compute. reflexivity.
Defined.

(** C3, as stated, fails: the root cause of this response has [cause],
    [confidence] and [next_action] present and null, and the validator
    accepts the response. *)
Lemma validator_accepts_null_fields :
  (exists d, root_causes_of response_with_nulls = [JObj d]
             /\ get "cause" d = Some JNull /\ get "confidence" d = Some JNull
             /\ get "next_action" d = Some JNull)
  /\ valid_schema response_with_nulls = true
  /\ parse_llm_response (fun _ => inl response_with_nulls) response_with_nulls_text
     = (response_with_nulls, "").
Proof.
  split; [|split; vm_compute; reflexivity].
  eexists. split; [reflexivity|]. repeat split.
Qed.

(** C4. The schema check rejects an object whose [root_causes] is a
    string, rejects an object whose root cause lacks required keys (with
    or without a [summary] array beside it), accepts a fully populated
    response, and accepts every object of the schema's shape. *)
Theorem valid_schema_scenarios :
  valid_schema (JObj [("root_causes", JStr "x")]) = false
  /\ valid_schema (JObj [("root_causes", JArr [JObj [("cause", JStr "x")]])]) = false
  /\ valid_schema (JObj [("root_causes", JArr [JObj [("cause", JStr "x")]]);
                         ("summary", JArr [])]) = false
  /\ valid_schema well_formed_response = true
  /\ (forall obj, schema_shape obj -> valid_schema obj = true).
Proof.
  repeat (split; [reflexivity|]). intros obj H. now apply valid_schema_shape.
Qed.

Lemma valid_schema_scenarios_witness :
  schema_shape well_formed_response /\ valid_schema well_formed_response = true.
Proof.
  assert (H : schema_shape well_formed_response).
  { unfold schema_shape, well_formed_response. do 3 eexists.
    split; [reflexivity|]. split; [reflexivity|]. split; [reflexivity|].
    constructor; [|constructor].
    unfold root_cause_shape. do 3 eexists.
    split; [reflexivity|]. repeat split. }
  split; [exact H|].
  exact (proj2 (proj2 (proj2 (proj2 valid_schema_scenarios))) well_formed_response H).
Defined.

(* ================================================================== *)
(** * The pipeline never raises on its own clusters *)
(* ================================================================== *)

Lemma In_firstn {A} (x : A) n : forall l, In x (firstn n l) -> In x l.
Proof.
  induction n as [|n IH]; intros [|y l]; simpl; try contradiction.
  intros [->|H]; auto.
Qed.

Lemma length_firstn_le {A} n : forall l : list A, (List.length (firstn n l) <= n)%nat.
Proof.
  induction n as [|n IH]; intros [|y l]; simpl; try lia.
  specialize (IH l). lia.
Qed.

Lemma In_slice_to {A} (x : A) n l : In x (Py.slice_to n l) -> In x l.
Proof. unfold Py.slice_to. destruct (0 <=? n); apply In_firstn. Qed.

Lemma fold_min_in l : forall x, In (fold_left Z.min l x) (x :: l).
Proof.
  induction l as [|y l IH]; intros x; simpl; [auto|].
  destruct (IH (Z.min x y)) as [H|H]; [|auto].
  rewrite <- H. destruct (Z.min_spec x y) as [[_ ->]|[_ ->]]; auto.
Qed.

Lemma fold_max_in l : forall x, In (fold_left Z.max l x) (x :: l).
Proof.
  induction l as [|y l IH]; intros x; simpl; [auto|].
  destruct (IH (Z.max x y)) as [H|H]; [|auto].
  rewrite <- H. destruct (Z.max_spec x y) as [[_ ->]|[_ ->]]; auto.
Qed.

Lemma index_in_range {A} (l : list A) i :
  0 <= i < Py.llen l -> exists x, Py.index l i = Some x.
Proof.
  intros H. unfold Py.index.
  replace ((0 <=? i) && (i <? Py.llen l)) with true
    by (symmetry; apply andb_true_iff; split; [apply Z.leb_le|apply Z.ltb_lt]; lia).
  destruct (nth_error l (Z.to_nat i)) eqn:E; [eauto|].
  apply nth_error_None in E. unfold Py.llen in H. lia.
Qed.

Lemma extract_loop_total log ctx max_chars clusters :
  Forall (real_cluster log) clusters ->
  forall sections total,
    exists r, extract_loop log ctx max_chars clusters sections total = Some r.
Proof.
  induction 1 as [|c clusters [Hne Hc] _ IH]; intros sections total; simpl; [eauto|].
  destruct c as [|x c]; [congruence|]. simpl.
  assert (Hmin : 1 <= fold_left Z.min c x <= Py.llen log).
  { rewrite Forall_forall in Hc. apply Hc. apply fold_min_in. }
  set (mn := fold_left Z.min c x) in *. clearbody mn.
  assert (Hidx : 0 <= mn - 1 < Py.llen log) by lia.
  destruct (index_in_range log (mn - 1) Hidx) as [l ->].
  repeat match goal with |- context [if ?b then _ else _] => destruct b end; eauto.
Qed.

Lemma find_from_range lines :
  forall i, Forall (fun n => i <= n < i + Py.llen lines) (find_from i lines).
Proof.
  induction lines as [|line rest IH]; intros i; simpl; [constructor|].
  specialize (IH (i + 1)).
  assert (Hrest : Forall (fun n => i <= n < i + Py.llen (line :: rest))
                         (find_from (i + 1) rest)).
  { eapply Forall_impl; [|exact IH]. unfold Py.llen. simpl List.length. intros; lia. }
  destruct (match_error line); [constructor|]; try assumption.
  unfold Py.llen. simpl List.length. lia.
Qed.

Lemma clusters_of_real log window : Forall (real_cluster log) (clusters_of log window).
Proof.
  unfold clusters_of.
  destruct (cluster_indices_concat (find_error_indices log) window) as [Hcat Hne].
  pose proof (find_from_range log 1) as Hr. fold (find_error_indices log) in Hr.
  rewrite <- Hcat in Hr. apply Forall_concat in Hr.
  rewrite Forall_forall in *. intros c Hc. split; [now apply Hne|].
  eapply Forall_impl; [|exact (Hr c Hc)]. cbv beta. intros; lia.
Qed.

Lemma sections_of_total a log : exists secs total, sections_of a log = Some (secs, total).
Proof.
  unfold sections_of, extract_sections.
  destruct (extract_loop_total log (context a) (max_chars a)
              (Py.slice_to (max_sections a) (clusters_of log (cluster_window a))))
    with (sections := @nil section) (total := 0) as [[secs total] H].
  - pose proof (clusters_of_real log (cluster_window a)) as Hr.
    rewrite Forall_forall in *. intros c Hc. apply Hr. eapply In_slice_to; eauto.
  - exists secs, total. exact H.
Qed.

(* ================================================================== *)
(** * The deterministic fallback *)
(* ================================================================== *)

Lemma truthy_true s : Py.truthy s = true <-> s <> "".
Proof. destruct s; simpl; split; congruence. Qed.

Lemma first_hint_cases n ts :
  forall o, first_hint n o ts = []
            \/ exists line snippet, first_hint n o ts = [evidence_entry line snippet].
Proof.
  induction ts as [|t ts IH]; intros o; simpl; [auto|].
  destruct (Re.search true EVIDENCE_HINT t); [right; eauto|apply IH].
Qed.

Lemma in_insert_by_count x y l : In x (insert_by_count y l) -> x = y \/ In x l.
Proof.
  induction l as [|z l IH]; simpl.
  - intros [<-|[]]; auto.
  - destruct (snd y <? snd z); simpl.
    + intros [<-|H]; [auto|]. destruct (IH H); auto.
    + intros [<-|H]; auto.
Qed.

Lemma in_most_common x n l : In x (most_common n l) -> In x l.
Proof.
  unfold most_common. intros H. apply In_firstn in H. revert H.
  induction l as [|y l IH]; simpl; [auto|].
  intros H. apply in_insert_by_count in H. destruct H as [->|H]; auto.
Qed.

Lemma tally_keys h counts kn :
  In kn (tally h counts) -> fst kn = h \/ exists n, In (fst kn, n) counts.
Proof.
  induction counts as [|[k n] counts IH]; simpl.
  - intros [<-|[]]. auto.
  - destruct (String.eqb k h) eqn:E; simpl.
    + apply String.eqb_eq in E. subst k.
      intros [<-|H]; [auto|]. right. exists (snd kn). right. now destruct kn.
    + intros [<-|H]; [right; exists n; auto|].
      destruct (IH H) as [?|[m Hm]]; [auto|]. right. exists m. auto.
Qed.

Lemma Counter_keys items :
  forall acc kn,
    In kn (fold_left (fun counts h => tally h counts) items acc) ->
    In (fst kn) items \/ exists n, In (fst kn, n) acc.
Proof.
  induction items as [|h items IH]; intros acc kn; simpl.
  - intros H. right. exists (snd kn). now destruct kn.
  - intros H. destruct (IH _ _ H) as [?|[n Hn]]; [auto|].
    destruct (tally_keys _ _ _ Hn) as [Heq|?]; simpl in *; auto.
Qed.

Lemma find_headline sections cause :
  In cause (map headline sections) ->
  exists s, find (fun s => String.eqb (headline s) cause) sections = Some s.
Proof.
  intros H. apply in_map_iff in H. destruct H as (s & Hs & Hin).
  destruct (find (fun s => String.eqb (headline s) cause) sections) eqn:E; [eauto|].
  pose proof (find_none _ _ E s Hin) as Hf. simpl in Hf.
  rewrite Hs, String.eqb_refl in Hf. discriminate.
Qed.

Lemma fallback_cause_has_shape sections cause :
  In cause (map headline sections) -> fallback_cause_shape (fallback_cause sections cause).
Proof.
  intros H. destruct (find_headline _ _ H) as [s Hs].
  unfold fallback_cause, fallback_cause_shape. rewrite Hs.
  destruct (first_hint_cases (line_number s) (lines s) 0) as [->|(l & sn & ->)]; eauto.
Qed.

(** The fallback object: at most three root causes of the fallback
    shape, and the fixed summary. *)
Lemma fallback_causes sections :
  exists rcs,
    fallback sections = JObj [("root_causes", JArr rcs); ("summary", JArr FALLBACK_SUMMARY)]
    /\ (List.length rcs <= 3)%nat /\ Forall fallback_cause_shape rcs.
Proof.
  unfold fallback. eexists. split; [reflexivity|]. split.
  - rewrite length_map. unfold most_common. apply length_firstn_le.
  - apply Forall_forall. intros rc Hrc. apply in_map_iff in Hrc.
    destruct Hrc as ([cause n] & <- & Hin). simpl.
    apply fallback_cause_has_shape.
    apply in_most_common in Hin. unfold Counter in Hin.
    destruct (Counter_keys _ _ _ Hin) as [Hh|[m []]]. simpl in Hh.
    apply filter_In in Hh. apply Hh.
Qed.

Lemma fallback_cause_shape_ok rc :
  fallback_cause_shape rc -> root_cause_ok rc = true /\ evidence_prints rc = true.
Proof. intros (cause & line & snippet & ->). split; reflexivity. Qed.

Lemma fallback_valid sections : valid_schema (fallback sections) = true.
Proof.
  destruct (fallback_causes sections) as (rcs & -> & _ & Hall). simpl.
  apply forallb_forall. intros rc Hin. rewrite Forall_forall in Hall.
  now apply fallback_cause_shape_ok, Hall.
Qed.

Lemma fallback_presents sections : presents (fallback sections) = true.
Proof.
  destruct (fallback_causes sections) as (rcs & -> & _ & Hall).
  change (forallb evidence_prints (firstn 3 rcs) = true).
  apply forallb_forall. intros rc Hin. apply In_firstn in Hin.
  rewrite Forall_forall in Hall. now apply fallback_cause_shape_ok, Hall.
Qed.




(* ================================================================== *)
(** * Completion of an invocation *)
(* ================================================================== *)


(** Every object an invocation writes passes the schema check. *)
Lemma run_result_valid make_prompt call_backend json_loads a file obj :
  result (run make_prompt call_backend json_loads a file) = Some obj ->
  valid_schema obj = true.
Proof.
  unfold run. destruct file as [raw_lines|]; [|discriminate].
  destruct (sections_of a (read_lines raw_lines)) as [[[|s secs] n]|]; try discriminate.
  destruct (call_backend _) as [raw|]; [|discriminate].
  destruct (Py.truthy raw); simpl negb; cbv iota.
  - destruct (parse_llm_response json_loads raw) as [o err] eqn:Hp.
    destruct (Py.truthy err) eqn:Herr.
    + rewrite fallback_presents. simpl. intros [= <-]. apply fallback_valid.
    + destruct (presents o); simpl; [|discriminate]. intros [= <-].
      destruct err; [|discriminate].
      exact (parse_llm_response_validates json_loads raw o Hp).
  - simpl. intros [= <-]. reflexivity.
Qed.




(* ================================================================== *)
(** * Evidence of the final result *)
(* ================================================================== *)

Lemma schema_shape_evidence obj :
  schema_shape obj ->
  Forall (fun rc => exists e es, evidence_of rc = e :: es) (root_causes_of obj).
Proof.
  intros (d & rcs & summary & -> & Hr & _ & Hall). simpl. rewrite Hr.
  eapply Forall_impl; [|exact Hall].
  intros rc (d' & e0 & es & -> & _ & _ & _ & He). simpl. rewrite He. eauto.
Qed.

(** C7, as amended. In every result an invocation writes - the
    validated response, the fallback, or the object written for an empty
    response - every root cause is an object with a non-empty evidence
    array.  Nothing is said of the [line] of an evidence entry. *)
Theorem result_root_causes_have_evidence
        (make_prompt : list section -> list string -> string)
        (call_backend : string -> option string)
        (json_loads : string -> value + string)
        (a : args) (file : option (list string)) (obj : value)
        (Hres : result (run make_prompt call_backend json_loads a file) = Some obj) :
  schema_shape obj
  /\ Forall (fun rc => exists e es, evidence_of rc = e :: es) (root_causes_of obj).
Proof.
  assert (Hs : schema_shape obj).
  { apply valid_schema_shape. eapply run_result_valid. exact Hres. }
  split; [exact Hs|now apply schema_shape_evidence].
Qed.

Lemma result_root_causes_have_evidence_witness :
  schema_shape response_citing_999
  /\ Forall (fun rc => exists e es, evidence_of rc = e :: es)
            (root_causes_of response_citing_999).
Proof.
  apply (result_root_causes_have_evidence
           prompt_stub (backend_says response_citing_999_text)
           (loads_only response_citing_999_text response_citing_999)
           default_args (Some one_error_log)).
  vm_compute. reflexivity.
Defined.

(** C7, as stated, fails: the validator does not look at the [line] of
    an evidence entry, so on a log of one line the final result is a
    validated response whose only evidence entry cites line 999. *)
Lemma validated_result_cites_no_real_line :
  Py.llen (read_lines one_error_log) = 1
  /\ result (run prompt_stub (backend_says response_citing_999_text)
                 (loads_only response_citing_999_text response_citing_999)
                 default_args (Some one_error_log))
     = Some response_citing_999
  /\ exists rc, In rc (root_causes_of response_citing_999)
                /\ forall e, In e (evidence_of rc) ->
                             ~ cites_real_line (read_lines one_error_log) e.
Proof.
  split; [reflexivity|]. split; [vm_compute; reflexivity|].
  eexists. split; [left; reflexivity|].
  intros e [<-|[]] (d & n & [= <-] & Hline & Hn).
  vm_compute in Hline. injection Hline as <-.
  change (Py.llen (read_lines one_error_log)) with 1 in Hn. lia.
Qed.

(** The fallback adds the offset of the hinting line within the context
    slice to the head line number: on a log of three lines whose last
    line is the failure, the evidence cites line 5. *)
Example fallback_evidence_line_offset :
  Py.llen (read_lines late_error_log) = 3
  /\ root_causes_of (fallback [mk_section 3 "b.c:7:2: error: y" late_error_log])
     = [JObj [("cause", JStr "b.c:7:2: error: y");
              ("evidence", JArr [evidence_entry 5 "b.c:7:2: error: y"]);
              ("confidence", JStr "low");
              ("next_action", JStr NEXT_ACTION)]]
  /\ sections_of default_args (read_lines late_error_log)
     = Some ([mk_section 3 "b.c:7:2: error: y" late_error_log], 37).
Proof. repeat split; vm_compute; reflexivity. Qed.

(* ================================================================== *)
(** * The character budget of the extractor *)
(* ================================================================== *)

Lemma lstrip_length s : (String.length (Py.lstrip s) <= String.length s)%nat.
Proof.
  induction s as [|c s IH]; simpl; [lia|]. destruct (Py.isspace c); simpl; lia.
Qed.

Lemma rstrip_length s : (String.length (Py.rstrip s) <= String.length s)%nat.
Proof.
  induction s as [|c s IH]; simpl; [lia|].
  destruct (Py.rstrip s); [destruct (Py.isspace c)|]; simpl in *; lia.
Qed.

Lemma strip_len s : 0 <= Py.len (Py.strip s) <= Py.len s.
Proof.
  unfold Py.len, Py.strip.
  pose proof (rstrip_length (Py.lstrip s)). pose proof (lstrip_length s). lia.
Qed.

Lemma counted_total_snoc secs s :
  counted_total (secs ++ [s]) = counted_total secs + counted_chars s.
Proof. induction secs as [|x secs IH]; simpl; lia. Qed.

(** The running total of the loop never passes the budget, and it
    bounds the stripped text of the sections committed. *)
Lemma extract_loop_counted log ctx max_chars clusters :
  forall secs total secs' total',
    total <= max_chars -> counted_total secs <= total ->
    extract_loop log ctx max_chars clusters secs total = Some (secs', total') ->
    total' <= max_chars /\ counted_total secs' <= total'.
Proof.
  induction clusters as [|c clusters IH]; intros secs total secs' total' Hmax Hcnt; simpl.
  - intros [= <- <-]. auto.
  - destruct (Py.min c) as [mn|]; [|discriminate].
    destruct (Py.max c) as [mx|]; [|discriminate].
    destruct (Py.index log (mn - 1)) as [l|]; [|discriminate].
    set (chunk := slice_with_context log (mn - ctx) (mx + ctx)).
    destruct (total + Py.len (Py.strip (Py.join Py.nl chunk)) >? max_chars) eqn:Hfull.
    + destruct (total + Py.len (Py.join Py.nl (half chunk)) >? max_chars) eqn:Hhalf.
      * intros [= <- <-]. auto.
      * apply IH.
        -- rewrite Z.gtb_ltb, Z.ltb_ge in Hhalf. exact Hhalf.
        -- rewrite counted_total_snoc. unfold counted_chars. simpl lines.
           pose proof (strip_len (Py.join Py.nl (half chunk))). lia.
    + apply IH.
      * rewrite Z.gtb_ltb, Z.ltb_ge in Hfull. exact Hfull.
      * rewrite counted_total_snoc. unfold counted_chars. simpl lines. lia.
Qed.

(** For a budget that is not negative, the total the extractor returns
    is within the budget and bounds the stripped text of the sections. *)
Lemma extract_sections_counted log clusters ctx max_sections max_chars secs total :
  0 <= max_chars ->
  extract_sections log clusters ctx max_sections max_chars = Some (secs, total) ->
  counted_total secs <= total <= max_chars.
Proof.
  intros Hmax H. unfold extract_sections in H.
  destruct (extract_loop_counted _ _ _ _ [] 0 secs total Hmax (Z.le_refl 0) H). lia.
Qed.

(** C1, on the code. On a log whose failure line sits between two lines
    of ten spaces, with a budget of 20 characters, the extractor counts
    the stripped text (17 characters) and commits the section in full;
    the lines of the section it emits hold 37 characters, 39 with the
    newlines between them. *)
Theorem extract_sections_exceeds_budget :
  clusters_of padded_error_log 8 = [[2]]
  /\ extract_sections padded_error_log [[2]] 5 10 20
     = Some ([mk_section 2 "a.c:1:1: error: x" padded_error_log], 17)
  /\ emitted_chars [mk_section 2 "a.c:1:1: error: x" padded_error_log] = 39
  /\ fold_right (fun l n => Py.len l + n) 0 padded_error_log = 37
  /\ 37 > 20.
Proof. repeat split; vm_compute; reflexivity. Qed.

Lemma lstrip_spaces n s : Py.lstrip (String.append (spaces n) s) = Py.lstrip s.
Proof. induction n as [|n IH]; simpl; [reflexivity|exact IH]. Qed.

Lemma length_append_spaces n s :
  String.length (String.append (spaces n) s) = (n + String.length s)%nat.
Proof. induction n as [|n IH]; simpl; [reflexivity|now rewrite IH]. Qed.

(** The overrun has no bound: however long the blank line before the
    failure, the extractor counts 17 characters, commits the section in
    full under a budget of 20, and emits more than [n] characters. *)
Lemma extract_sections_overrun_unbounded (n : nat) :
  exists secs,
    extract_sections (indented_log n) [[2]] 5 10 20 = Some (secs, 17)
    /\ emitted_chars secs = Z.of_nat n + 18.
Proof.
  exists [mk_section 2 "a.c:1:1: error: x" (indented_log n)]. split.
  - unfold extract_sections, indented_log.
    change (Py.slice_to 10 [[2]]) with [[2]].
    cbn [extract_loop Py.min Py.max fold_left].
    change (slice_with_context [spaces n; "a.c:1:1: error: x"] (2 - 5) (2 + 5))
      with [spaces n; "a.c:1:1: error: x"].
    change (Py.index [spaces n; "a.c:1:1: error: x"] (2 - 1))
      with (Some "a.c:1:1: error: x").
    cbv iota beta zeta.
    replace (Py.strip (Py.join Py.nl [spaces n; "a.c:1:1: error: x"]))
      with "a.c:1:1: error: x"
      by (unfold Py.strip; cbn [Py.join]; now rewrite lstrip_spaces).
    reflexivity.
  - unfold emitted_chars, section_chars, Py.len. cbn [fold_right lines indented_log Py.join].
    rewrite length_append_spaces. cbn [Py.nl String.append String.length]. lia.
Qed.

(* ================================================================== *)
(** * Categorisation *)
(* ================================================================== *)

Lemma first_rule_none rules text :
  (forall name rx, In (name, rx) rules -> Re.search false rx text = false) ->
  first_rule rules text = "other".
Proof.
  induction rules as [|[name rx] rules IH]; intros H; simpl; [reflexivity|].
  rewrite (H name rx (or_introl eq_refl)). apply IH.
  intros n r Hin. apply (H n r). now right.
Qed.

(** A match fails when every continuation fails on texts without
    lower-case letters: the matcher only moves forward in the text. *)
Lemma many_fails {A} ic p (k : @Re.cont A) s :
  forall prev,
    no_lowercase s ->
    (forall prev' s', no_lowercase s' -> k prev' s' = None) ->
    Re.many ic p prev s k = None.
Proof.
  induction s as [|x s IH]; intros prev Hs Hk; simpl.
  - now apply Hk.
  - destruct Hs as [Hx Hs]. destruct (Re.cls_matches ic p x).
    + rewrite (IH (Some x) Hs Hk). apply Hk. now split.
    + apply Hk. now split.
Qed.

Lemma exec_fails {A} ic r :
  forall prev s (k : @Re.cont A),
    no_lowercase s ->
    (forall prev' s', no_lowercase s' -> k prev' s' = None) ->
    Re.exec ic r prev s k = None.
Proof.
  induction r as [|c|p|p| | |r1 IH1 r2 IH2|r1 IH1 r2 IH2]; intros prev s k Hs Hk; simpl.
  - now apply Hk.
  - destruct s as [|x s]; [reflexivity|]. destruct Hs as [_ Hs].
    destruct (Re.chr_matches ic c x); [now apply Hk|reflexivity].
  - destruct s as [|x s]; [reflexivity|]. destruct Hs as [_ Hs].
    destruct (Re.cls_matches ic p x); [now apply Hk|reflexivity].
  - now apply many_fails.
  - destruct (xorb _ _); [now apply Hk|reflexivity].
  - destruct prev; [reflexivity|now apply Hk].
  - apply IH1; [assumption|]. intros prev' s' Hs'. now apply IH2.
  - rewrite IH1 by assumption. now apply IH2.
Qed.

Lemma exec_needs_lower {A} r :
  forall prev s (k : @Re.cont A),
    needs_lower r = true -> no_lowercase s -> Re.exec false r prev s k = None.
Proof.
  induction r as [|c|p|p| | |r1 IH1 r2 IH2|r1 IH1 r2 IH2]; intros prev s k Hr Hs;
    simpl in *; try discriminate.
  - destruct s as [|x s]; [reflexivity|]. destruct Hs as [Hx _].
    destruct (Ascii.eqb x c) eqn:E; [|reflexivity].
    apply Ascii.eqb_eq in E. congruence.
  - apply orb_true_iff in Hr. destruct Hr as [Hr|Hr].
    + now apply IH1.
    + apply exec_fails; [assumption|]. intros prev' s' Hs'. now apply IH2.
  - apply andb_true_iff in Hr. destruct Hr as [Hr1 Hr2].
    rewrite IH1 by assumption. now apply IH2.
Qed.

Lemma search_needs_lower r s :
  needs_lower r = true -> no_lowercase s -> Re.search false r s = false.
Proof.
  intros Hr. unfold Re.search. generalize (@None ascii).
  induction s as [|x s IH]; intros prev Hs; simpl; unfold Re.match_here;
    rewrite (exec_needs_lower r _ _ _ Hr Hs); [reflexivity|].
  apply IH. apply Hs.
Qed.

(** C10. Section categorisation is case-sensitive.  A text that no
    category pattern matches as written is categorised [other]; so is
    every text without lower-case letters, whatever keywords it
    spells in capitals.  The line "CMake Error at ..." is flagged by the
    detector, which ignores case, and is categorised [other], while the
    same line in lower case is categorised [cmake_config]. *)
Theorem categorise_section_case_sensitive :
  (forall text,
      (forall name rx, In (name, rx) CATEGORY_RULES -> Re.search false rx text = false) ->
      categorise_section text = "other")
  /\ (forall text, no_lowercase text -> categorise_section text = "other")
  /\ match_error cmake_line = true
  /\ categorise_section cmake_line = "other"
  /\ categorise_section (BuildAnalysis.lower cmake_line) = "cmake_config"
  /\ match_error "UNDEFINED REFERENCE TO `BAR'" = true.
Proof.
  split; [|split].
  - intros text H. now apply first_rule_none.
  - intros text Htext. apply first_rule_none. intros name rx Hin.
    apply search_needs_lower; [|assumption].
    assert (Hall : forallb (fun nr => needs_lower (snd nr)) CATEGORY_RULES = true)
      by reflexivity.
    rewrite forallb_forall in Hall. exact (Hall (name, rx) Hin).
  - repeat split; vm_compute; reflexivity.
Qed.

Lemma categorise_section_case_sensitive_witness :
  categorise_section "UNDEFINED REFERENCE TO `BAR'" = "other"
  /\ categorise_section cmake_line = "other".
Proof.
  split.
  - apply (proj1 (proj2 categorise_section_case_sensitive)).
    vm_compute. repeat split.
  - apply (proj1 categorise_section_case_sensitive).
    intros name rx Hin. vm_compute in Hin.
    repeat (destruct Hin as [[= <- <-]|Hin]; [vm_compute; reflexivity|]).
    contradiction.
Defined.

(* ================================================================== *)
(** * A log without failures *)
(* ================================================================== *)






(* ================================================================== *)
(** * Further properties of detection and clustering *)
(* ================================================================== *)

Lemma find_from_member lines :
  forall i n,
    In n (find_from i lines) <->
    i <= n /\ exists line, nth_error lines (Z.to_nat (n - i)) = Some line
                           /\ match_error line = true.
Proof.
  induction lines as [|l rest IH]; intros i n; simpl.
  - split; [contradiction|]. intros (_ & line & H & _). now destruct (Z.to_nat (n - i)).
  - assert (Hstep : In n (find_from (i + 1) rest) <->
                    i < n /\ exists line, nth_error (l :: rest) (Z.to_nat (n - i)) = Some line
                                          /\ match_error line = true).
    { rewrite IH. split.
      - intros (Hle & line & Hn & Hm). split; [lia|]. exists line. split; [|exact Hm].
        replace (Z.to_nat (n - i)) with (S (Z.to_nat (n - (i + 1)))) by lia. exact Hn.
      - intros (Hlt & line & Hn & Hm). split; [lia|]. exists line. split; [|exact Hm].
        replace (Z.to_nat (n - i)) with (S (Z.to_nat (n - (i + 1)))) in Hn by lia.
        exact Hn. }
    destruct (match_error l) eqn:Hl.
    + simpl. rewrite Hstep. split.
      * intros [<-|(Hlt & H)]; [|split; [lia|exact H]].
        split; [lia|]. exists l. now rewrite Z.sub_diag.
      * intros (Hle & line & Hn & Hm). destruct (Z.eq_dec i n) as [->|Hne]; [now left|].
        right. split; [lia|eauto].
    + rewrite Hstep. split.
      * intros (Hlt & H). split; [lia|exact H].
      * intros (Hle & line & Hn & Hm). destruct (Z.eq_dec i n) as [->|Hne].
        -- rewrite Z.sub_diag in Hn. simpl in Hn. congruence.
        -- split; [lia|eauto].
Qed.

(** X1. The detector returns the numbers of exactly the lines that
    [match_error] accepts, counted from 1, in strictly increasing
    order. *)
Theorem find_error_indices_exact (log : list string) :
  StronglySorted Z.lt (find_error_indices log)
  /\ forall n, In n (find_error_indices log) <->
               1 <= n /\ exists line, nth_error log (Z.to_nat (n - 1)) = Some line
                                      /\ match_error line = true.
Proof.
  split; [apply find_error_indices_sorted|]. intros n. apply find_from_member.
Qed.

Lemma chain_head w x xs : exists c cs, chain w x xs = (x :: c) :: cs.
Proof.
  destruct xs as [|y ys]; simpl; [eauto|].
  destruct (y - x <=? w); [|eauto].
  pose proof (chain_nonempty w y ys). destruct (chain w y ys); [congruence|eauto].
Qed.

Lemma chain_gaps w xs :
  forall x, Forall (gaps_within w) (chain w x xs) /\ split_between w (chain w x xs).
Proof.
  induction xs as [|y ys IH]; intros x.
  - simpl. split; [constructor; [exact I|constructor]|exact I].
  - destruct (IH y) as [Hin Hout]. destruct (chain_head w y ys) as (c & cs & Hch).
    simpl. destruct (y - x <=? w) eqn:Hw; rewrite Hch in *.
    + apply Z.leb_le in Hw. inversion Hin; subst. split.
      * constructor; [|assumption]. simpl. auto.
      * destruct cs as [|c2 cs]; [exact I|]. simpl in Hout |- *.
        destruct Hout as [Hgap Hrest]. split; [|exact Hrest].
        destruct c; exact Hgap.
    + apply Z.leb_gt in Hw. split.
      * constructor; [exact I|assumption].
      * simpl. split; [lia|exact Hout].
Qed.

(** X2. In the clusters of any list, consecutive members of a cluster
    are at most [window] apart, and every cluster starts more than
    [window] after the last member of the cluster before it: no two
    neighbouring clusters could be merged. *)
Theorem cluster_indices_gaps (xs : list Z) (window : Z) :
  Forall (gaps_within window) (cluster_indices xs window)
  /\ split_between window (cluster_indices xs window).
Proof.
  destruct xs as [|x xs]; [split; [constructor|exact I]|].
  rewrite cluster_indices_chain. apply chain_gaps.
Qed.

Lemma chain_head_widen w w' xs :
  w <= w' ->
  forall x, incl (hd [] (chain w x xs)) (hd [] (chain w' x xs)).
Proof.
  intros Hw. induction xs as [|y ys IH]; intros x; simpl; [apply incl_refl|].
  specialize (IH y).
  destruct (chain_head w y ys) as (c & cs & Hc).
  destruct (chain_head w' y ys) as (c' & cs' & Hc').
  rewrite Hc, Hc' in *. simpl in IH.
  destruct (y - x <=? w) eqn:E1, (y - x <=? w') eqn:E2; simpl.
  - intros a [<-|Ha]; [now left|right; now apply IH].
  - apply Z.leb_le in E1. apply Z.leb_gt in E2. lia.
  - intros a [<-|[]]. now left.
  - apply incl_refl.
Qed.

Lemma chain_widen w w' xs :
  w <= w' ->
  forall x c, In c (chain w x xs) -> exists c', In c' (chain w' x xs) /\ incl c c'.
Proof.
  intros Hw. induction xs as [|y ys IH]; intros x c; simpl.
  - intros [<-|[]]. exists [x]. split; [now left|apply incl_refl].
  - pose proof (chain_head_widen w w' ys Hw y) as Hhd.
    specialize (IH y).
    destruct (chain_head w y ys) as (c0 & cs & Hc).
    destruct (chain_head w' y ys) as (c0' & cs' & Hc').
    rewrite Hc, Hc' in *. simpl in Hhd.
    assert (Hlift : forall d, In d ((y :: c0') :: cs') ->
                              exists d', In d' (if y - x <=? w'
                                                then (x :: y :: c0') :: cs'
                                                else [x] :: (y :: c0') :: cs')
                                         /\ incl d d').
    { intros d [<-|Hd]; destruct (y - x <=? w').
      - exists (x :: y :: c0'). split; [now left|]. apply incl_tl. apply incl_refl.
      - exists (y :: c0'). split; [right; now left|apply incl_refl].
      - exists d. split; [now right|apply incl_refl].
      - exists d. split; [right; now right|apply incl_refl]. }
    destruct (y - x <=? w) eqn:E1.
    + intros [<-|Hin].
      * assert ((y - x <=? w') = true) as -> by (apply Z.leb_le; apply Z.leb_le in E1; lia).
        exists (x :: y :: c0'). split; [now left|].
        intros a [<-|Ha]; [now left|right; now apply Hhd].
      * destruct (IH c (or_intror Hin)) as (d & Hd & Hincl).
        destruct (Hlift d Hd) as (d' & Hd' & Hincl').
        exists d'. split; [exact Hd'|]. eapply incl_tran; eauto.
    + intros [<-|Hin].
      * destruct (y - x <=? w').
        -- exists (x :: y :: c0'). split; [now left|]. intros a [<-|[]]. now left.
        -- exists [x]. split; [now left|apply incl_refl].
      * destruct (IH c Hin) as (d & Hd & Hincl).
        destruct (Hlift d Hd) as (d' & Hd' & Hincl').
        exists d'. split; [exact Hd'|]. eapply incl_tran; eauto.
Qed.

(** X3. Widening the window only merges clusters: every cluster for a
    window is contained in a cluster for any wider window. *)
Theorem cluster_indices_widen (xs : list Z) (w w' : Z) (Hw : w <= w') :
  forall c, In c (cluster_indices xs w) ->
            exists c', In c' (cluster_indices xs w') /\ incl c c'.
Proof.
  destruct xs as [|x xs]; [contradiction|].
  rewrite !cluster_indices_chain. now apply chain_widen.
Qed.

Lemma cluster_indices_widen_witness :
  exists c', In c' (cluster_indices [1; 5; 10; 30] 8) /\ incl [1; 5] c'.
Proof.
  apply (cluster_indices_widen [1; 5; 10; 30] 4 8); [lia|].
  vm_compute. auto.
Defined.

(* ================================================================== *)
(** * Further properties of the extractor *)
(* ================================================================== *)



Lemma counted_total_nonneg secs : 0 <= counted_total secs.
Proof.
  induction secs as [|s secs IH]; simpl; [lia|].
  unfold counted_chars. pose proof (strip_len (Py.join Py.nl (lines s))). lia.
Qed.

(** X5. For a budget that is not negative, the total the extractor
    returns lies between 0 and the budget and is at least the stripped
    text of the sections it returns. *)
Theorem extract_sections_running_total
        (log : list string) (clusters : list (list Z))
        (ctx max_sections max_chars : Z) (secs : list section) (total : Z)
        (Hbudget : 0 <= max_chars)
        (Hret : extract_sections log clusters ctx max_sections max_chars = Some (secs, total)) :
  0 <= total <= max_chars /\ counted_total secs <= total.
Proof.
  pose proof (extract_sections_counted _ _ _ _ _ _ _ Hbudget Hret).
  pose proof (counted_total_nonneg secs). lia.
Qed.

Lemma extract_sections_running_total_witness :
  0 <= 37 <= 12000
  /\ counted_total [mk_section 3 "b.c:7:2: error: y" late_error_log] <= 37.
Proof.
  apply (extract_sections_running_total late_error_log [[3]] 5 10 12000
           [mk_section 3 "b.c:7:2: error: y" late_error_log] 37).
  - lia.
  - vm_compute. reflexivity.
Defined.

Lemma len_nonneg s : 0 <= Py.len s.
Proof. unfold Py.len. lia. Qed.

(** X6. With a negative budget, or with [max_sections] 0, the extractor
    returns no section and a total of 0 whenever it returns. *)
Theorem extract_sections_nothing_to_spend
        (log : list string) (clusters : list (list Z))
        (ctx max_sections max_chars : Z) (secs : list section) (total : Z)
        (Hnone : max_chars < 0 \/ max_sections = 0)
        (Hret : extract_sections log clusters ctx max_sections max_chars = Some (secs, total)) :
  secs = [] /\ total = 0.
Proof.
  unfold extract_sections in Hret. destruct Hnone as [Hneg| ->].
  - destruct (Py.slice_to max_sections clusters) as [|c cl]; simpl in Hret.
    + now injection Hret as <- <-.
    + destruct (Py.min c) as [mn|]; [|discriminate].
      destruct (Py.max c) as [mx|]; [|discriminate].
      destruct (Py.index log (mn - 1)) as [l|]; [|discriminate].
      set (chunk := slice_with_context log (mn - ctx) (mx + ctx)) in *.
      pose proof (len_nonneg (Py.strip (Py.join Py.nl chunk))).
      pose proof (len_nonneg (Py.join Py.nl (half chunk))).
      change (0 + Py.len (Py.strip (Py.join Py.nl chunk)))
        with (Py.len (Py.strip (Py.join Py.nl chunk))) in Hret.
      change (0 + Py.len (Py.join Py.nl (half chunk)))
        with (Py.len (Py.join Py.nl (half chunk))) in Hret.
      replace (Py.len (Py.strip (Py.join Py.nl chunk)) >? max_chars) with true in Hret
        by (symmetry; rewrite Z.gtb_ltb; apply Z.ltb_lt; lia).
      replace (Py.len (Py.join Py.nl (half chunk)) >? max_chars) with true in Hret
        by (symmetry; rewrite Z.gtb_ltb; apply Z.ltb_lt; lia).
      now injection Hret as <- <-.
  - simpl in Hret. now injection Hret as <- <-.
Qed.

Lemma extract_sections_nothing_to_spend_witness :
  @nil section = [] /\ 0 = 0.
Proof.
  apply (extract_sections_nothing_to_spend log_1_5_10 [[1; 5]; [10]] 5 10 (-1) [] 0).
  - left. lia.
  - vm_compute. reflexivity.
Defined.

Lemma extract_loop_prefix log ctx max_chars clusters :
  forall secs total secs' total',
    extract_loop log ctx max_chars clusters secs total = Some (secs', total') ->
    exists k, (k <= List.length clusters)%nat
              /\ map line_number secs'
                 = map line_number secs ++ firstn k (map head_of clusters).
Proof.
  induction clusters as [|c clusters IH]; intros secs total secs' total'; simpl.
  - intros [= <- <-]. exists 0%nat. split; [lia|]. now rewrite app_nil_r.
  - unfold head_of at 1.
    destruct (Py.min c) as [mn|]; [|discriminate].
    destruct (Py.max c) as [mx|]; [|discriminate].
    destruct (Py.index log (mn - 1)) as [l|]; [|discriminate].
    assert (Hstep : forall s t,
               line_number s = mn ->
               extract_loop log ctx max_chars clusters (secs ++ [s]) t = Some (secs', total') ->
               exists k, (k <= S (List.length clusters))%nat
                         /\ map line_number secs'
                            = map line_number secs ++ firstn k (mn :: map head_of clusters)).
    { intros s t Hs H. destruct (IH _ _ _ _ H) as (k & Hk & Hmap).
      exists (S k). split; [lia|]. rewrite Hmap, map_app, <- app_assoc. simpl.
      now rewrite Hs. }
    destruct (_ >? max_chars).
    + destruct (_ >? max_chars).
      * intros [= <- <-]. exists 0%nat. split; [lia|]. now rewrite app_nil_r.
      * now apply Hstep.
    + now apply Hstep.
Qed.

Lemma length_slice_to {A} n (l : list A) :
  (List.length (Py.slice_to n l) <= List.length l)%nat
  /\ (0 <= n -> Z.of_nat (List.length (Py.slice_to n l)) <= n).
Proof.
  unfold Py.slice_to. destruct (0 <=? n) eqn:E.
  - pose proof (length_firstn_le (Z.to_nat n) l). rewrite length_firstn. split; lia.
  - apply Z.leb_gt in E. rewrite length_firstn. split; lia.
Qed.

(** X7. The sections come from a prefix of the retained clusters, one
    section per cluster and in the same order: their head line numbers
    are the minima of the first clusters.  There are no more sections
    than clusters, and no more than a [max_sections] that is not
    negative. *)
Theorem extract_sections_prefix_of_clusters
        (log : list string) (clusters : list (list Z))
        (ctx max_sections max_chars : Z) (secs : list section) (total : Z)
        (Hret : extract_sections log clusters ctx max_sections max_chars = Some (secs, total)) :
  (exists k, map line_number secs
             = firstn k (map head_of (Py.slice_to max_sections clusters)))
  /\ (List.length secs <= List.length clusters)%nat
  /\ (0 <= max_sections -> Py.llen secs <= max_sections).
Proof.
  unfold extract_sections in Hret.
  destruct (extract_loop_prefix _ _ _ _ _ _ _ _ Hret) as (k & Hk & Hmap).
  simpl in Hmap. pose proof (length_slice_to max_sections clusters) as [Hl Hn].
  assert (Hlen : (List.length secs <= List.length (Py.slice_to max_sections clusters))%nat).
  { rewrite <- (length_map line_number secs), Hmap, length_firstn. lia. }
  split; [eauto|]. split; [lia|]. intros H0. specialize (Hn H0). unfold Py.llen. lia.
Qed.

Lemma extract_sections_prefix_of_clusters_witness :
  (exists k, map line_number [mk_section 3 "b.c:7:2: error: y" late_error_log]
             = firstn k (map head_of (Py.slice_to 10 [[3]])))
  /\ (List.length [mk_section 3 "b.c:7:2: error: y" late_error_log]
      <= List.length [[3]])%nat
  /\ (0 <= 10 -> Py.llen [mk_section 3 "b.c:7:2: error: y" late_error_log] <= 10).
Proof.
  apply (extract_sections_prefix_of_clusters late_error_log [[3]] 5 10 12000
           [mk_section 3 "b.c:7:2: error: y" late_error_log] 37).
  vm_compute. reflexivity.
Defined.

Lemma fold_min_le l : forall x, fold_left Z.min l x <= x.
Proof.
  induction l as [|y l IH]; intros x; simpl; [lia|].
  specialize (IH (Z.min x y)). lia.
Qed.

Lemma fold_max_ge l : forall x, x <= fold_left Z.max l x.
Proof.
  induction l as [|y l IH]; intros x; simpl; [lia|].
  specialize (IH (Z.max x y)). lia.
Qed.

Lemma In_skipn_in {A} (x : A) n : forall l, In x (skipn n l) -> In x l.
Proof.
  induction n as [|n IH]; intros [|y l]; simpl; auto.
Qed.

Lemma slice_with_context_incl log a b : incl (slice_with_context log a b) log.
Proof.
  unfold slice_with_context. intros x Hx.
  apply In_firstn in Hx. now apply In_skipn_in in Hx.
Qed.

Lemma slice_with_context_nonempty log mn mx ctx :
  1 <= mn <= Py.llen log -> mn <= mx -> 0 <= ctx ->
  slice_with_context log (mn - ctx) (mx + ctx) <> [].
Proof.
  intros Hmn Hmx Hctx Hnil. apply (f_equal (@List.length string)) in Hnil.
  unfold slice_with_context in Hnil. rewrite length_firstn, length_skipn in Hnil.
  unfold Py.llen in *. simpl in Hnil. lia.
Qed.

Lemma half_nonempty chunk : chunk <> [] -> half chunk <> [].
Proof.
  intros Hne Hnil. apply (f_equal (@List.length string)) in Hnil.
  unfold half, Py.slice_to in Hnil.
  replace (0 <=? Z.max 1 (Py.llen chunk / 2)) with true in Hnil
    by (symmetry; apply Z.leb_le; lia).
  rewrite length_firstn in Hnil. destruct chunk; [congruence|]. simpl in Hnil. lia.
Qed.

Lemma half_incl chunk : incl (half chunk) chunk.
Proof. intros x Hx. unfold half in Hx. now apply In_slice_to in Hx. Qed.

Lemma match_error_nonblank l : match_error l = true -> Py.strip l <> "".
Proof.
  unfold match_error. intros H E. rewrite E in H. vm_compute in H. discriminate.
Qed.

(** A cluster of flagged line numbers. *)
Lemma flagged_line log n :
  flagged log n ->
  1 <= n <= Py.llen log
  /\ exists l, nth_error log (Z.to_nat (n - 1)) = Some l /\ match_error l = true.
Proof.
  intros H. apply find_from_member in H. destruct H as (H1 & l & Hn & Hm).
  split; [|eauto]. split; [exact H1|].
  assert (Hlt : (Z.to_nat (n - 1) < List.length log)%nat)
    by (apply nth_error_Some; congruence).
  unfold Py.llen. lia.
Qed.

Lemma extract_loop_sections_of_log log ctx max_chars clusters :
  0 <= ctx ->
  Forall (fun c => c <> [] /\ Forall (flagged log) c) clusters ->
  forall secs total secs' total',
    Forall (section_of_log log) secs ->
    extract_loop log ctx max_chars clusters secs total = Some (secs', total') ->
    Forall (section_of_log log) secs'.
Proof.
  intros Hctx. induction 1 as [|c clusters [Hne Hfl] _ IH];
    intros secs total secs' total' Hsecs; simpl.
  - now intros [= <- <-].
  - destruct c as [|x c]; [congruence|]. simpl Py.min. simpl Py.max. cbv iota.
    pose proof (fold_min_in c x) as Hin. pose proof (fold_min_le c x) as Hle.
    pose proof (fold_max_ge c x) as Hge.
    set (mn := fold_left Z.min c x) in *. set (mx := fold_left Z.max c x) in *.
    rewrite Forall_forall in Hfl. pose proof (Hfl mn Hin) as Hmn.
    destruct (flagged_line log mn Hmn) as (Hrange & l & Hl & Hm).
    assert (Hidx : Py.index log (mn - 1) = Some l).
    { unfold Py.index.
      replace ((0 <=? mn - 1) && (mn - 1 <? Py.llen log)) with true; [exact Hl|].
      symmetry. apply andb_true_iff. split; [apply Z.leb_le|apply Z.ltb_lt]; lia. }
    rewrite Hidx.
    assert (Hchunk : slice_with_context log (mn - ctx) (mx + ctx) <> [])
      by (apply slice_with_context_nonempty; lia).
    assert (Hstep : forall ls t,
               ls <> [] -> incl ls log ->
               extract_loop log ctx max_chars clusters
                            (secs ++ [mk_section mn (Py.strip l) ls]) t
               = Some (secs', total') ->
               Forall (section_of_log log) secs').
    { intros ls t Hls Hincl. apply IH. apply Forall_app. split; [assumption|].
      constructor; [|constructor]. unfold section_of_log. simpl.
      repeat split; try assumption; eauto using match_error_nonblank. }
    destruct (_ >? max_chars).
    + destruct (_ >? max_chars).
      * now intros [= <- <-].
      * apply Hstep; [now apply half_nonempty|].
        eapply incl_tran; [apply half_incl|apply slice_with_context_incl].
    + apply Hstep; [assumption|apply slice_with_context_incl].
Qed.

(** X8. With a context that is not negative, every section the
    pipeline extracts from a log is headed by a flagged line of the log,
    carries that line's stripped text as its headline, which is not
    empty, and has at least one context line, all of them lines of the
    log. *)
Theorem sections_come_from_the_log
        (a : args) (log : list string) (secs : list section) (total : Z)
        (Hctx : 0 <= context a)
        (Hret : sections_of a log = Some (secs, total)) :
  Forall (section_of_log log) secs.
Proof.
  unfold sections_of, extract_sections in Hret.
  eapply extract_loop_sections_of_log; [exact Hctx| |constructor|exact Hret].
  destruct (cluster_indices_concat (find_error_indices log) (cluster_window a))
    as [Hcat Hne].
  rewrite Forall_forall in *. intros c Hc. apply In_slice_to in Hc.
  split; [now apply Hne|]. apply Forall_forall. intros n Hn.
  unfold flagged. rewrite <- Hcat. apply in_concat. eauto.
Qed.

Lemma sections_come_from_the_log_witness :
  Forall (section_of_log late_error_log)
         [mk_section 3 "b.c:7:2: error: y" late_error_log].
Proof.
  apply (sections_come_from_the_log default_args late_error_log
           [mk_section 3 "b.c:7:2: error: y" late_error_log] 37).
  - vm_compute. discriminate.
  - vm_compute. reflexivity.
Defined.

(* ================================================================== *)
(** * Further properties of response parsing *)
(* ================================================================== *)

Lemma append_assoc (a b c : string) :
  String.append (String.append a b) c = String.append a (String.append b c).
Proof. induction a as [|x a IH]; simpl; [reflexivity|now rewrite IH]. Qed.

Lemma append_nil_r (a : string) : String.append a EmptyString = a.
Proof. induction a as [|x a IH]; simpl; [reflexivity|now rewrite IH]. Qed.

Lemma from_first_some c s t :
  from_first c s = Some t ->
  exists pre rest, s = String.append pre t /\ t = String c rest /\ contains c pre = false.
Proof.
  revert t. induction s as [|x s IH]; intros t; simpl; [discriminate|].
  destruct (Ascii.eqb x c) eqn:E.
  - intros [= <-]. apply Ascii.eqb_eq in E. subst x.
    exists EmptyString, s. auto.
  - intros H. destruct (IH t H) as (pre & rest & -> & -> & Hpre).
    exists (String x pre), rest. simpl. rewrite E. auto.
Qed.

Lemma from_first_none c s : from_first c s = None <-> contains c s = false.
Proof.
  induction s as [|x s IH]; simpl; [tauto|].
  destruct (Ascii.eqb x c); simpl; [split; discriminate|exact IH].
Qed.

Lemma last_cons_nonempty {A} (x d : A) l : l <> [] -> last (x :: l) d = last l d.
Proof. destruct l; [congruence|reflexivity]. Qed.

(** A block that the scan returns ends where the stack empties, on the
    closer at the bottom of the stack. *)
Lemma block_scan_ends s :
  forall stack b,
    stack <> [] -> block_scan s stack = Some b ->
    exists body post,
      b = String.append body (String (last stack " "%char) EmptyString)
      /\ s = String.append b post.
Proof.
  induction s as [|ch s IH]; intros stack b Hne; simpl; [discriminate|].
  assert (Hrec : forall stack', stack' <> [] -> last stack' " "%char = last stack " "%char ->
                   option_map (String ch) (block_scan s stack') = Some b ->
                   exists body post,
                     b = String.append body (String (last stack " "%char) EmptyString)
                     /\ String ch s = String.append b post).
  { intros stack' Hne' Hlast H.
    destruct (block_scan s stack') as [b'|] eqn:E; [|discriminate].
    injection H as <-. destruct (IH stack' b' Hne' E) as (body & post & -> & Hs).
    rewrite Hlast in Hs. exists (String ch body), post. rewrite Hlast.
    split; [reflexivity|]. simpl. now rewrite <- Hs. }
  destruct (Ascii.eqb ch "{" || Ascii.eqb ch "[").
  - apply Hrec; [discriminate|]. now apply last_cons_nonempty.
  - destruct (Ascii.eqb ch "}" || Ascii.eqb ch "]"); [|now apply Hrec].
    destruct stack as [|top stack']; [congruence|].
    destruct (Ascii.eqb ch top) eqn:E; [|now apply Hrec].
    apply Ascii.eqb_eq in E. subst top.
    destruct stack' as [|t2 stack'].
    + intros [= <-]. exists EmptyString, s. auto.
    + apply Hrec; [discriminate|reflexivity].
Qed.

(** X9. What [extract_json_block] returns is empty, or a contiguous
    piece of the text that opens with a bracket and ends with the
    bracket that closes it; the piece starts at the first brace when the
    text has one, and at the first square bracket otherwise.  A text
    with neither yields the empty text. *)
Theorem extract_json_block_shape (s : string) :
  (extract_json_block s = ""
   \/ exists pre post o body,
       s = String.append pre (String.append (extract_json_block s) post)
       /\ extract_json_block s = String o (String.append body (String (closer_of o) ""))
       /\ is_opener o = true
       /\ contains "{" pre = false
       /\ (o = "["%char -> contains "{" s = false /\ contains "[" pre = false))
  /\ (contains "{" s = false -> contains "[" s = false -> extract_json_block s = "").
Proof.
  assert (Hblock : forall o pre rest,
             is_opener o = true ->
             s = String.append pre (String o rest) ->
             match block_scan (String o rest) [] with Some b => b | None => "" end = ""
             \/ exists post body,
                 s = String.append pre
                       (String.append
                          (match block_scan (String o rest) [] with
                           | Some b => b | None => "" end) post)
                 /\ match block_scan (String o rest) [] with Some b => b | None => "" end
                    = String o (String.append body (String (closer_of o) ""))).
  { intros o pre rest Ho Hs. simpl. unfold is_opener in Ho. rewrite Ho.
    destruct (block_scan rest _) as [b|] eqn:E; simpl; [right|now left].
    apply block_scan_ends in E; [|discriminate].
    destruct E as (body & post & -> & Hrest). exists post, body. split.
    - rewrite Hs, Hrest. reflexivity.
    - reflexivity. }
  unfold extract_json_block. split.
  - destruct (from_first "{" s) as [t|] eqn:E1.
    + destruct (from_first_some _ _ _ E1) as (pre & rest & Hs & -> & Hpre).
      destruct (Hblock "{"%char pre rest eq_refl Hs) as [H|(post & body & H1 & H2)];
        [now left|right].
      exists pre, post, "{"%char, body.
      split; [exact H1|]. split; [exact H2|]. split; [reflexivity|].
      split; [exact Hpre|]. discriminate.
    + destruct (from_first "[" s) as [t|] eqn:E2; [|now left].
      destruct (from_first_some _ _ _ E2) as (pre & rest & Hs & -> & Hpre).
      destruct (Hblock "["%char pre rest eq_refl Hs) as [H|(post & body & H1 & H2)];
        [now left|right].
      apply from_first_none in E1.
      exists pre, post, "["%char, body.
      split; [exact H1|]. split; [exact H2|]. split; [reflexivity|].
      split; [|intros _; split; [exact E1|exact Hpre]].
      clear -E1 Hs. subst s. induction pre as [|x pre IH]; simpl in *; [reflexivity|].
      apply orb_false_iff in E1. destruct E1 as [-> E1]. simpl. now apply IH.
  - intros H1 H2. apply from_first_none in H1. apply from_first_none in H2.
    now rewrite H1, H2.
Qed.

Lemma option_map_append_nil (o : option string) : option_map (String.append "") o = o.
Proof. now destruct o. Qed.

(** Inside an open block, a well-nested text is scanned through. *)
Lemma block_scan_nested body :
  nested body ->
  forall rest stack,
    stack <> [] ->
    block_scan (String.append body rest) stack
    = option_map (String.append body) (block_scan rest stack).
Proof.
  induction 1 as [|c s Ho Hc Hs IH|o body s Ho Hb IHb Hs IHs]; intros rest stack Hne.
  - simpl. now destruct (block_scan rest stack).
  - simpl. unfold is_opener, is_closer in Ho, Hc. rewrite Ho, Hc, (IH rest stack Hne).
    now destruct (block_scan rest stack).
  - simpl. unfold is_opener in Ho. rewrite Ho. rewrite append_assoc.
    rewrite IHb by discriminate. simpl.
    assert (Hcl : Ascii.eqb (closer_of o) "{" || Ascii.eqb (closer_of o) "[" = false)
      by (unfold closer_of; destruct (Ascii.eqb o "{"); reflexivity).
    assert (Hcl' : Ascii.eqb (closer_of o) "}" || Ascii.eqb (closer_of o) "]" = true)
      by (unfold closer_of; destruct (Ascii.eqb o "{"); reflexivity).
    rewrite Hcl, Hcl'.
    replace (if Ascii.eqb o "{" then "}"%char else "]"%char) with (closer_of o)
      by reflexivity.
    rewrite Ascii.eqb_refl. destruct stack as [|t stack]; [congruence|].
    rewrite (IHs rest (t :: stack)) by discriminate.
    destruct (block_scan rest (t :: stack)); simpl; [|reflexivity].
    now rewrite append_assoc.
Qed.

Lemma from_first_skip c pre rest :
  contains c pre = false ->
  from_first c (String.append pre (String c rest)) = Some (String c rest).
Proof.
  induction pre as [|x pre IH]; simpl.
  - intros _. now rewrite Ascii.eqb_refl.
  - intros H. apply orb_false_iff in H. destruct H as [-> H]. now apply IH.
Qed.

Lemma block_scan_whole o body post :
  is_opener o = true -> nested body ->
  block_scan (String o (String.append body (String (closer_of o) post))) []
  = Some (String o (String.append body (String (closer_of o) ""))).
Proof.
  intros Ho Hb. simpl. unfold is_opener in Ho. rewrite Ho.
  rewrite (block_scan_nested body Hb) by discriminate. simpl.
  assert (Hcl : Ascii.eqb (closer_of o) "{" || Ascii.eqb (closer_of o) "[" = false)
    by (unfold closer_of; destruct (Ascii.eqb o "{"); reflexivity).
  assert (Hcl' : Ascii.eqb (closer_of o) "}" || Ascii.eqb (closer_of o) "]" = true)
    by (unfold closer_of; destruct (Ascii.eqb o "{"); reflexivity).
  rewrite Hcl, Hcl'.
  replace (if Ascii.eqb o "{" then "}"%char else "]"%char) with (closer_of o)
    by reflexivity.
  now rewrite Ascii.eqb_refl.
Qed.

(** X10. An object embedded in commentary is extracted exactly: when
    the text before it has no brace and its body is well nested, the
    block from its opening brace to the matching closing brace is
    returned, whatever follows.  The same holds for an embedded array
    when the whole text has no brace. *)
Theorem extract_json_block_embedded (pre body post : string) (Hbody : nested body) :
  (contains "{" pre = false ->
   extract_json_block (String.append pre (String "{" (String.append body (String "}" post))))
   = String "{" (String.append body "}"))
  /\ (contains "[" pre = false ->
      contains "{" (String.append pre (String "[" (String.append body (String "]" post))))
      = false ->
      extract_json_block (String.append pre (String "[" (String.append body (String "]" post))))
      = String "[" (String.append body "]")).
Proof.
  split.
  - intros Hpre. unfold extract_json_block. rewrite (from_first_skip _ _ _ Hpre).
    pose proof (block_scan_whole "{"%char body post eq_refl Hbody) as Hw.
    change (closer_of "{"%char) with "}"%char in Hw. now rewrite Hw.
  - intros Hpre Hno. unfold extract_json_block.
    apply from_first_none in Hno. rewrite Hno. rewrite (from_first_skip _ _ _ Hpre).
    pose proof (block_scan_whole "["%char body post eq_refl Hbody) as Hw.
    change (closer_of "["%char) with "]"%char in Hw. now rewrite Hw.
Qed.

Lemma extract_json_block_embedded_witness :
  extract_json_block
    (String.append "Sure! " (String "{" (String.append "a: [1]" (String "}" " Done."))))
  = String "{" (String.append "a: [1]" "}").
Proof.
  apply (proj1 (extract_json_block_embedded "Sure! " "a: [1]" " Done."
           ltac:(do 3 (apply nested_char; [reflexivity|reflexivity|]);
                 apply (nested_block "["%char "1" "");
                 [reflexivity
                 |apply nested_char; [reflexivity|reflexivity|apply nested_nil]
                 |apply nested_nil]))).
  reflexivity.
Defined.


Lemma rstrip_idempotent s : Py.rstrip (Py.rstrip s) = Py.rstrip s.
Proof.
  induction s as [|c s IH]; simpl; [reflexivity|].
  destruct (Py.rstrip s) as [|x r] eqn:E.
  - destruct (Py.isspace c) eqn:Hc; simpl; [reflexivity|now rewrite Hc].
  - simpl. simpl in IH. now rewrite IH.
Qed.

Lemma lstrip_head s :
  Py.lstrip s = "" \/ exists c t, Py.lstrip s = String c t /\ Py.isspace c = false.
Proof.
  induction s as [|c s IH]; simpl; [now left|].
  destruct (Py.isspace c) eqn:E; [exact IH|right; eauto].
Qed.

Lemma strip_idempotent s : Py.strip (Py.strip s) = Py.strip s.
Proof.
  unfold Py.strip. destruct (lstrip_head s) as [->|(c & t & -> & Hc)]; [reflexivity|].
  assert (Hr : exists r, Py.rstrip (String c t) = String c r).
  { simpl. destruct (Py.rstrip t); [rewrite Hc|]; eauto. }
  destruct Hr as [r Hr]. rewrite Hr. simpl Py.lstrip. rewrite Hc.
  rewrite <- Hr. apply rstrip_idempotent.
Qed.

(** X12. White space around a text changes neither the detector's
    verdict on a line nor the parse of a response that is not blank; a
    response of white space only is reported as "no json block
    found". *)
Theorem surrounding_whitespace_is_ignored :
  (forall line, match_error (Py.strip line) = match_error line)
  /\ (forall json_loads raw,
         Py.strip raw <> "" ->
         parse_llm_response json_loads (Py.strip raw) = parse_llm_response json_loads raw)
  /\ (forall json_loads raw,
         raw <> "" -> Py.strip raw = "" ->
         parse_llm_response json_loads raw = (JObj [], "no json block found")).
Proof.
  split; [|split].
  - intros line. unfold match_error. now rewrite strip_idempotent.
  - intros json_loads raw Hne. unfold parse_llm_response.
    rewrite strip_idempotent.
    assert (Hraw : raw <> "") by (intros ->; now apply Hne).
    apply truthy_true in Hne. apply truthy_true in Hraw. now rewrite Hne, Hraw.
  - intros json_loads raw Hraw Hblank. unfold parse_llm_response.
    apply truthy_true in Hraw. rewrite Hraw, Hblank. reflexivity.
Qed.

Lemma surrounding_whitespace_is_ignored_witness :
  parse_llm_response (loads_only "{}" (JObj [])) (Py.strip "  {}  ")
  = parse_llm_response (loads_only "{}" (JObj [])) "  {}  "
  /\ parse_llm_response (loads_only "{}" (JObj [])) "   "
     = (JObj [], "no json block found").
Proof.
  split.
  - apply (proj1 (proj2 surrounding_whitespace_is_ignored)). vm_compute. discriminate.
  - apply (proj2 (proj2 surrounding_whitespace_is_ignored)).
    + discriminate.
    + vm_compute. reflexivity.
Defined.

(* ================================================================== *)
(** * Further properties of the fallback *)
(* ================================================================== *)

Lemma tally_keys_eq h counts :
  map fst (tally h counts)
  = if existsb (fun kn => String.eqb (fst kn) h) counts
    then map fst counts else map fst counts ++ [h].
Proof.
  induction counts as [|[k n] counts IH]; simpl; [reflexivity|].
  destruct (String.eqb k h) eqn:E; simpl.
  - apply String.eqb_eq in E. now subst.
  - rewrite IH. now destruct (existsb _ counts).
Qed.

Lemma tally_NoDup h counts : NoDup (map fst counts) -> NoDup (map fst (tally h counts)).
Proof.
  intros Hnd. rewrite tally_keys_eq.
  destruct (existsb _ counts) eqn:E; [assumption|].
  apply NoDup_app; [assumption|repeat constructor; intros []|].
  intros k Hk [Heq|[]]. subst k. apply in_map_iff in Hk.
  destruct Hk as ([k' n] & Hfst & Hin). simpl in Hfst. subst k'.
  assert (existsb (fun kn => String.eqb (fst kn) h) counts = true).
  { apply existsb_exists. exists (h, n). split; [assumption|apply String.eqb_refl]. }
  congruence.
Qed.

Lemma tally_count_of h k counts :
  count_of k (tally h counts)
  = count_of k counts + (if String.eqb h k then 1 else 0).
Proof.
  induction counts as [|[k' n] counts IH]; simpl.
  - destruct (String.eqb h k); lia.
  - destruct (String.eqb k' h) eqn:E; simpl.
    + apply String.eqb_eq in E. subst k'. destruct (String.eqb h k); lia.
    + destruct (String.eqb k' k) eqn:E'; [|exact IH].
      apply String.eqb_eq in E'. subst k'. rewrite String.eqb_sym, E. lia.
Qed.

Lemma tally_positive h counts :
  Forall (fun kn => 1 <= snd kn) counts -> Forall (fun kn => 1 <= snd kn) (tally h counts).
Proof.
  induction 1 as [|[k n] counts Hn Hall IH]; simpl.
  - repeat constructor. simpl. lia.
  - destruct (String.eqb k h); constructor; simpl in *; try assumption; lia.
Qed.

Lemma Counter_spec items :
  forall acc,
    NoDup (map fst acc) -> Forall (fun kn => 1 <= snd kn) acc ->
    let counts := fold_left (fun counts h => tally h counts) items acc in
    NoDup (map fst counts)
    /\ Forall (fun kn => 1 <= snd kn) counts
    /\ forall k, count_of k counts = count_of k acc + occurrences items k.
Proof.
  unfold occurrences. induction items as [|h items IH]; intros acc Hnd Hpos; simpl.
  - repeat split; try assumption. intros; lia.
  - destruct (IH (tally h acc) (tally_NoDup h acc Hnd) (tally_positive h acc Hpos))
      as (H1 & H2 & H3).
    repeat split; try assumption. intros k. rewrite H3, tally_count_of.
    destruct (string_dec h k) as [->|Hne].
    + rewrite String.eqb_refl. lia.
    + apply String.eqb_neq in Hne. rewrite Hne. lia.
Qed.

Lemma count_of_In k n counts :
  NoDup (map fst counts) -> In (k, n) counts -> count_of k counts = n.
Proof.
  induction counts as [|[k' n'] counts IH]; simpl; [contradiction|].
  intros Hnd [[= -> ->]|Hin].
  - now rewrite String.eqb_refl.
  - inversion Hnd as [|? ? Hnot Hnd']; subst.
    destruct (String.eqb k' k) eqn:E; [|now apply IH].
    apply String.eqb_eq in E. subst k'. exfalso. apply Hnot.
    apply in_map_iff. exists (k, n). auto.
Qed.

Lemma count_of_positive_In k counts :
  0 < count_of k counts -> In (k, count_of k counts) counts.
Proof.
  induction counts as [|[k' n'] counts IH]; simpl; [lia|].
  destruct (String.eqb k' k) eqn:E.
  - apply String.eqb_eq in E. subst. auto.
  - auto.
Qed.

Lemma insert_by_count_perm x l : Permutation (insert_by_count x l) (x :: l).
Proof.
  induction l as [|y l IH]; simpl; [reflexivity|].
  destruct (snd x <? snd y); [|reflexivity].
  rewrite IH. apply perm_swap.
Qed.

Lemma sort_by_count_perm l : Permutation (fold_right insert_by_count [] l) l.
Proof.
  induction l as [|x l IH]; simpl; [reflexivity|].
  rewrite insert_by_count_perm. now constructor.
Qed.

Lemma insert_by_count_sorted x l :
  StronglySorted (fun a b => snd b <= snd a) l ->
  StronglySorted (fun a b => snd b <= snd a) (insert_by_count x l).
Proof.
  induction 1 as [|y l Hs IH Hy]; simpl; [repeat constructor|].
  destruct (snd x <? snd y) eqn:E.
  - apply Z.ltb_lt in E. constructor; [assumption|].
    apply Forall_forall. intros z Hz.
    apply (Permutation_in _ (insert_by_count_perm x l)) in Hz.
    destruct Hz as [<-|Hz]; [lia|]. rewrite Forall_forall in Hy. now apply Hy.
  - apply Z.ltb_ge in E. constructor; [now constructor|].
    constructor; [exact E|]. eapply Forall_impl; [|exact Hy]. simpl. intros; lia.
Qed.

Lemma sort_by_count_sorted l :
  StronglySorted (fun a b => snd b <= snd a) (fold_right insert_by_count [] l).
Proof.
  induction l as [|x l IH]; simpl; [constructor|now apply insert_by_count_sorted].
Qed.

Lemma sorted_firstn_skipn {A} (R : A -> A -> Prop) n l :
  StronglySorted R l ->
  StronglySorted R (firstn n l)
  /\ forall x y, In x (firstn n l) -> In y (skipn n l) -> R x y.
Proof.
  intros Hs. revert n. induction Hs as [|a l Hs IH Ha]; intros n.
  - rewrite firstn_nil. split; [constructor|contradiction].
  - destruct n as [|n]; simpl.
    + split; [constructor|contradiction].
    + destruct (IH n) as [H1 H2]. rewrite Forall_forall in Ha. split.
      * constructor; [assumption|]. apply Forall_forall. intros z Hz.
        apply Ha. eapply In_firstn; eauto.
      * intros x y [<-|Hx] Hy; [|now apply H2].
        apply Ha. eapply In_skipn_in; eauto.
Qed.

Lemma NoDup_firstn {A} n : forall l : list A, NoDup l -> NoDup (firstn n l).
Proof.
  induction n as [|n IH]; intros [|x l] Hnd; simpl; try constructor.
  - inversion Hnd; subst. intros Hin. apply In_firstn in Hin. contradiction.
  - inversion Hnd; subst. now apply IH.
Qed.

(** X13. The fallback ranks the distinct non-empty headlines of the
    sections: the ranking holds no headline twice, pairs each headline
    with its number of occurrences, is ordered by count from high to
    low, and leaves a headline out only when it already holds three
    headlines, each occurring at least as often.  The root causes of the
    fallback follow the ranking one for one. *)
Theorem fallback_ranks_headlines (sections : list section) :
  NoDup (map fst (ranking sections))
  /\ (forall h n, In (h, n) (ranking sections) ->
                  In h (ranked_headlines sections)
                  /\ n = occurrences (ranked_headlines sections) h /\ 1 <= n)
  /\ StronglySorted (fun a b => snd b <= snd a) (ranking sections)
  /\ (forall h, In h (ranked_headlines sections) ->
                ~ In h (map fst (ranking sections)) ->
                List.length (ranking sections) = 3%nat
                /\ forall k n, In (k, n) (ranking sections) ->
                               occurrences (ranked_headlines sections) h <= n)
  /\ root_causes_of (fallback sections)
     = map (fun cf => fallback_cause sections (fst cf)) (ranking sections).
Proof.
  unfold ranking, most_common. set (heads := ranked_headlines sections).
  destruct (Counter_spec heads [] (NoDup_nil _) (Forall_nil _)) as (Hnd & Hpos & Hcount).
  fold (Counter heads) in Hnd, Hpos, Hcount. simpl in Hcount.
  set (sorted := fold_right insert_by_count [] (Counter heads)).
  assert (Hperm : Permutation sorted (Counter heads)) by apply sort_by_count_perm.
  assert (Hnd' : NoDup (map fst sorted)).
  { eapply Permutation_NoDup; [|exact Hnd]. apply Permutation_map. now symmetry. }
  destruct (sorted_firstn_skipn (fun a b : string * Z => snd b <= snd a) 3 sorted
              (sort_by_count_sorted _)) as [Hsorted Hcut].
  assert (Hentry : forall h n, In (h, n) sorted -> n = occurrences heads h /\ 1 <= n).
  { intros h n Hin. apply (Permutation_in _ Hperm) in Hin.
    rewrite <- (count_of_In h n _ Hnd Hin) at 1. rewrite Hcount. split; [lia|].
    rewrite Forall_forall in Hpos. exact (Hpos (h, n) Hin). }
  split; [|split; [|split; [|split]]].
  - rewrite <- firstn_map. now apply NoDup_firstn.
  - intros h n Hin. apply In_firstn in Hin. destruct (Hentry h n Hin) as [Hn H1].
    split; [|now split]. unfold occurrences in Hn.
    destruct (count_occ string_dec heads h) eqn:E; [lia|].
    apply (count_occ_In string_dec). lia.
  - exact Hsorted.
  - intros h Hh Hout.
    assert (Hocc : 0 < occurrences heads h).
    { unfold occurrences. apply (count_occ_In string_dec) in Hh. lia. }
    assert (Hin : In (h, occurrences heads h) sorted).
    { apply (Permutation_in _ (Permutation_sym Hperm)).
      rewrite <- (Z.add_0_l (occurrences heads h)), <- Hcount.
      apply count_of_positive_In. rewrite Hcount. lia. }
    rewrite <- (firstn_skipn 3 sorted) in Hin. apply in_app_or in Hin.
    destruct Hin as [Hin|Hin].
    + exfalso. apply Hout. apply in_map_iff. exists (h, occurrences heads h). auto.
    + split.
      * rewrite length_firstn.
        assert (List.length (skipn 3 sorted) <> 0%nat) by (destruct (skipn 3 sorted);
          [contradiction|discriminate]).
        rewrite length_skipn in *. lia.
      * intros k n Hk. exact (Hcut (k, n) (h, occurrences heads h) Hk Hin).
  - reflexivity.
Qed.

Lemma prefix_length n : forall s, (String.length (Py.prefix n s) <= n)%nat.
Proof.
  induction n as [|n IH]; intros [|c s]; simpl; try lia. specialize (IH s). lia.
Qed.

Lemma first_hint_range n ts :
  forall o,
    first_hint n o ts = []
    \/ exists i snippet,
        first_hint n o ts = [evidence_entry (n + o + i) snippet]
        /\ 0 <= i < Py.llen ts /\ Py.len snippet <= 200.
Proof.
  induction ts as [|t ts IH]; intros o; simpl; [now left|].
  destruct (Re.search true EVIDENCE_HINT t).
  - right. exists 0, (Py.prefix 200 (Py.strip t)). rewrite Z.add_0_r.
    split; [reflexivity|]. unfold Py.llen, Py.len. simpl List.length.
    pose proof (prefix_length 200 (Py.strip t)). lia.
  - destruct (IH (o + 1)) as [->|(i & sn & -> & Hi & Hs)]; [now left|right].
    exists (i + 1), sn. replace (n + o + (i + 1)) with (n + (o + 1) + i) by lia.
    split; [reflexivity|]. unfold Py.llen in *. simpl List.length. lia.
Qed.

(** X14. Every root cause of the fallback is built from the first
    section that carries its headline: the cause is that headline cut
    to 120 characters, the single evidence snippet has at most 200
    characters, and the cited line lies between the section's head line
    number and that number plus the last offset of its context. *)
Theorem fallback_causes_are_bounded (sections : list section) :
  Forall (fun rc => exists s, In s sections /\ headline s <> "" /\ fallback_cause_of s rc)
         (root_causes_of (fallback sections)).
Proof.
  change (root_causes_of (fallback sections))
    with (map (fun cf => fallback_cause sections (fst cf)) (ranking sections)).
  apply Forall_forall. intros rc Hrc. apply in_map_iff in Hrc.
  destruct Hrc as ([cause n] & <- & Hin). simpl.
  assert (Hhead : In cause (ranked_headlines sections)).
  { unfold ranking in Hin. apply in_most_common in Hin. unfold Counter in Hin.
    destruct (Counter_keys _ _ _ Hin) as [Hh|[m []]]. exact Hh. }
  unfold ranked_headlines in Hhead. apply filter_In in Hhead.
  destruct Hhead as [Hmap Htruthy].
  destruct (find_headline _ _ Hmap) as [s Hs].
  pose proof (find_some _ _ Hs) as [Hsin Heq]. apply String.eqb_eq in Heq.
  exists s. split; [assumption|]. split; [rewrite Heq; now apply truthy_true|].
  unfold fallback_cause, fallback_cause_of. rewrite Hs, <- Heq.
  pose proof (prefix_length 120 (headline s)) as H120.
  pose proof (prefix_length 200 (headline s)) as H200.
  destruct (first_hint_range (line_number s) (lines s) 0)
    as [->|(i & sn & -> & Hi & Hsn)].
  - exists (line_number s), (Py.prefix 200 (headline s)).
    unfold Py.len, Py.llen. repeat split; try lia.
  - exists (line_number s + 0 + i), sn. unfold Py.len in *. repeat split; try lia.
Qed.

(* ================================================================== *)
(** * Further properties of an invocation *)
(* ================================================================== *)

(** X15. An invocation calls the backend at most once, never retries:
    it sends nothing when the log file is missing or the log yields no
    section, and otherwise exactly the prompt rendered from the sections
    and the log, whatever the backend answers. *)
Theorem run_calls_backend_at_most_once
        (make_prompt : list section -> list string -> string)
        (call_backend : string -> option string)
        (json_loads : string -> value + string)
        (a : args) (file : option (list string)) :
  let calls := backend_calls (run make_prompt call_backend json_loads a file) in
  (List.length calls <= 1)%nat
  /\ (file = None -> calls = [])
  /\ (forall raw_lines secs n,
         file = Some raw_lines ->
         sections_of a (read_lines raw_lines) = Some (secs, n) ->
         calls = match secs with
                 | [] => []
                 | _ => [make_prompt secs (read_lines raw_lines)]
                 end).
Proof.
  assert (Hsome : forall raw_lines secs n,
             sections_of a (read_lines raw_lines) = Some (secs, n) ->
             backend_calls (run make_prompt call_backend json_loads a (Some raw_lines))
             = match secs with
               | [] => []
               | _ => [make_prompt secs (read_lines raw_lines)]
               end).
  { intros raw_lines secs n Hs. unfold run. rewrite Hs.
    destruct secs as [|s secs]; [reflexivity|].
    destruct (call_backend _) as [raw|]; [|reflexivity].
    destruct (Py.truthy raw); simpl; [|reflexivity].
    destruct (parse_llm_response json_loads raw) as [o err].
    now destruct (presents _). }
  intros calls. subst calls. split; [|split].
  - destruct file as [raw_lines|]; [|simpl; lia].
    destruct (sections_of_total a (read_lines raw_lines)) as (secs & n & Hs).
    rewrite (Hsome raw_lines secs n Hs). destruct secs; simpl; lia.
  - now intros ->.
  - intros raw_lines secs n -> Hs. exact (Hsome raw_lines secs n Hs).
Qed.

Lemma run_calls_backend_at_most_once_witness :
  backend_calls (run prompt_stub (backend_says "") (loads_only "" JNull)
                     default_args (Some late_error_log))
  = ["PROMPT"].
Proof.
  apply (proj2 (proj2 (run_calls_backend_at_most_once
                         prompt_stub (backend_says "") (loads_only "" JNull)
                         default_args (Some late_error_log)))
               late_error_log [mk_section 3 "b.c:7:2: error: y" late_error_log] 37).
  - reflexivity.
  - vm_compute. reflexivity.
Defined.

Lemma evidence_prints_printable rc :
  root_cause_shape rc ->
  (evidence_prints rc = true <->
   forall e0 es, evidence_of rc = e0 :: es -> printable e0).
Proof.
  intros (d & e0 & es & -> & _ & _ & _ & He). simpl. rewrite He. split.
  - intros H e0' es' [= <- <-]. unfold printable.
    destruct e0 as [| | | | | |e]; try discriminate. exists e. split; [reflexivity|].
    destruct (get "snippet" e) as [[| | | | | |]|]; try discriminate; eauto.
  - intros H. destruct (H e0 es eq_refl) as (e & -> & Hs).
    destruct Hs as [->|[[s ->]|[l ->]]]; reflexivity.
Qed.

(** X16. A response that passes the schema check is returned unchanged
    with status 0 exactly when the first evidence entry of each of its
    first three root causes can be printed (an object whose snippet,
    if any, is a text or a list); otherwise the presentation loop
    raises and no result is written. *)
Theorem validated_response_outcome
        (make_prompt : list section -> list string -> string)
        (call_backend : string -> option string)
        (json_loads : string -> value + string)
        (a : args) (raw_lines : list string)
        (secs : list section) (n : Z) (raw : string) (obj : value)
        (Hsecs : sections_of a (read_lines raw_lines) = Some (secs, n))
        (Hne : secs <> [])
        (Hcall : call_backend (make_prompt secs (read_lines raw_lines)) = Some raw)
        (Hparse : parse_llm_response json_loads raw = (obj, "")) :
  let out := run make_prompt call_backend json_loads a (Some raw_lines) in
  let ok := forall rc, In rc (firstn 3 (root_causes_of obj)) ->
                       forall e0 es, evidence_of rc = e0 :: es -> printable e0 in
  (ok -> completed out = Exit 0 /\ result out = Some obj)
  /\ (~ ok -> completed out = Raised /\ result out = None).
Proof.
  intros out ok.
  pose proof (parse_llm_response_validates _ _ _ Hparse) as Hvalid.
  assert (Hraw : raw <> "").
  { intros ->. unfold parse_llm_response in Hparse. simpl in Hparse. discriminate. }
  assert (Hout : out = if presents obj
                       then mk_outcome (Exit 0) (Some obj)
                                       [make_prompt secs (read_lines raw_lines)]
                       else mk_outcome Raised None
                                       [make_prompt secs (read_lines raw_lines)]).
  { subst out. unfold run. rewrite Hsecs. destruct secs as [|s secs]; [congruence|].
    rewrite Hcall. apply truthy_true in Hraw. rewrite Hraw. simpl negb. cbv iota.
    rewrite Hparse. reflexivity. }
  assert (Hok : presents obj = true <-> ok).
  { subst ok. apply valid_schema_shape in Hvalid.
    destruct Hvalid as (d & rcs & summary & -> & Hr & _ & Hall). simpl. rewrite Hr.
    rewrite forallb_forall. rewrite Forall_forall in Hall. split.
    - intros H rc Hin. apply evidence_prints_printable; [|now apply H].
      apply Hall. exact (In_firstn rc 3 rcs Hin).
    - intros H rc Hin. apply evidence_prints_printable; [|now apply H].
      apply Hall. exact (In_firstn rc 3 rcs Hin). }
  rewrite Hout. split.
  - intros H. apply Hok in H. now rewrite H.
  - intros H. destruct (presents obj) eqn:E; [|now split].
    exfalso. apply H. now apply Hok.
Qed.

Lemma validated_response_outcome_witness :
  completed (run prompt_stub (backend_says response_with_bare_evidence_text)
                 (loads_only response_with_bare_evidence_text response_with_bare_evidence)
                 default_args (Some one_error_log)) = Raised
  /\ result (run prompt_stub (backend_says response_with_bare_evidence_text)
                 (loads_only response_with_bare_evidence_text response_with_bare_evidence)
                 default_args (Some one_error_log)) = None.
Proof.
  apply (proj2 (validated_response_outcome
                  prompt_stub (backend_says response_with_bare_evidence_text)
                  (loads_only response_with_bare_evidence_text response_with_bare_evidence)
                  default_args one_error_log
                  [mk_section 1 "a.c:1:1: error: x" one_error_log] 17
                  response_with_bare_evidence_text response_with_bare_evidence
                  ltac:(vm_compute; reflexivity) ltac:(discriminate)
                  ltac:(reflexivity) ltac:(vm_compute; reflexivity))).
  intros H.
  destruct (H (JObj [("cause", JStr "compile error"); ("evidence", JArr [JInt 1]);
                     ("confidence", JStr "high"); ("next_action", JStr "fix a.c")])
              (or_introl eq_refl) (JInt 1) [] eq_refl) as (d & Hd & _).
  discriminate.
Defined.

(* ================================================================== *)
(** * Grouping into categories *)
(* ================================================================== *)

Section Grouping.
Context {A : Type} (key : A -> string).

Lemma append_to_bucket_keys k (x : A) buckets :
  forall k', In k' (map fst (append_to_bucket k x buckets))
             <-> k' = k \/ In k' (map fst buckets).
Proof.
  induction buckets as [|[k0 v0] buckets IH]; intros k'; simpl.
  - intuition.
  - destruct (String.eqb k0 k) eqn:E; simpl.
    + apply String.eqb_eq in E. subst. intuition.
    + rewrite IH. intuition.
Qed.

Lemma append_to_bucket_NoDup k (x : A) buckets :
  NoDup (map fst buckets) -> NoDup (map fst (append_to_bucket k x buckets)).
Proof.
  induction buckets as [|[k0 v0] buckets IH]; simpl; intros Hnd.
  - repeat constructor. intros [].
  - inversion Hnd as [|? ? Hnot Hnd']; subst.
    destruct (String.eqb k0 k) eqn:E; simpl; [now constructor|].
    constructor; [|now apply IH]. rewrite append_to_bucket_keys.
    intros [->|Hin]; [|contradiction]. now rewrite String.eqb_refl in E.
Qed.

Lemma append_to_bucket_entries k (x : A) buckets :
  NoDup (map fst buckets) ->
  forall k' v', In (k', v') (append_to_bucket k x buckets) ->
                (k' <> k /\ In (k', v') buckets)
                \/ (k' = k /\ ((exists v, In (k, v) buckets /\ v' = v ++ [x])
                               \/ (~ In k (map fst buckets) /\ v' = [x]))).
Proof.
  induction buckets as [|[k0 v0] buckets IH]; simpl; intros Hnd k' v'.
  - intros [[= <- <-]|[]]. right. split; [reflexivity|]. right. tauto.
  - inversion Hnd as [|? ? Hnot Hnd']; subst.
    destruct (String.eqb k0 k) eqn:E.
    + apply String.eqb_eq in E. subst k0. intros [[= <- <-]|Hin].
      * right. split; [reflexivity|]. left. eauto.
      * left. split; [|auto]. intros ->. apply Hnot.
        apply in_map_iff. exists (k, v'). auto.
    + apply String.eqb_neq in E. intros [[= <- <-]|Hin]; [left; auto|].
      destruct (IH Hnd' _ _ Hin) as [[Hne Hb]|[-> [(v & Hv & ->)|[Hno ->]]]].
      * left. auto.
      * right. split; [reflexivity|]. left. eauto.
      * right. split; [reflexivity|]. right. split; [|reflexivity].
        intros [Heq|Hin']; [congruence|contradiction].
Qed.

Lemma with_key_snoc k seen (x : A) :
  with_key key k (seen ++ [x])
  = with_key key k seen ++ (if String.eqb (key x) k then [x] else []).
Proof. unfold with_key. rewrite filter_app. reflexivity. Qed.

Lemma grouped_step seen buckets (x : A) :
  grouped key seen buckets -> grouped key (seen ++ [x]) (append_to_bucket (key x) x buckets).
Proof.
  intros (Hnd & Hent & Hkeys). split; [now apply append_to_bucket_NoDup|]. split.
  - intros k v Hin. rewrite with_key_snoc.
    destruct (append_to_bucket_entries _ _ _ Hnd _ _ Hin)
      as [[Hne Hb]|[-> [(v0 & Hv & ->)|[Hno ->]]]].
    + destruct (Hent _ _ Hb) as [Hv ->]. split; [assumption|].
      apply not_eq_sym in Hne. apply String.eqb_neq in Hne. rewrite Hne.
      now rewrite app_nil_r.
    + destruct (Hent _ _ Hv) as [_ ->]. rewrite String.eqb_refl.
      split; [|reflexivity]. now destruct (with_key key (key x) seen).
    + rewrite String.eqb_refl. split; [discriminate|].
      assert (Hnone : with_key key (key x) seen = []).
      { unfold with_key. destruct (filter _ seen) as [|y l] eqn:E; [reflexivity|].
        assert (Hy : In y (filter (fun z => String.eqb (key z) (key x)) seen))
          by (rewrite E; now left).
        apply filter_In in Hy. destruct Hy as [Hy Heq]. apply String.eqb_eq in Heq.
        exfalso. apply Hno. rewrite <- Heq. now apply Hkeys. }
      now rewrite Hnone.
  - intros y Hy. apply append_to_bucket_keys. apply in_app_or in Hy.
    destruct Hy as [Hy|[<-|[]]]; [right; now apply Hkeys|now left].
Qed.

Lemma grouped_fold xs :
  forall seen buckets,
    grouped key seen buckets ->
    grouped key (seen ++ xs)
            (fold_left (fun b x => append_to_bucket (key x) x b) xs buckets).
Proof.
  induction xs as [|x xs IH]; intros seen buckets H; simpl.
  - now rewrite app_nil_r.
  - replace (seen ++ x :: xs) with ((seen ++ [x]) ++ xs)
      by (now rewrite <- app_assoc).
    apply IH. now apply grouped_step.
Qed.

Lemma grouped_all xs :
  grouped key xs (fold_left (fun b x => append_to_bucket (key x) x b) xs []).
Proof.
  apply (grouped_fold xs [] []). split; [constructor|]. split.
  - intros k v [].
  - intros x [].
Qed.

Lemma append_to_bucket_total k (x : A) buckets :
  list_sum (map (fun kv => List.length (snd kv)) (append_to_bucket k x buckets))
  = S (list_sum (map (fun kv => List.length (snd kv)) buckets)).
Proof.
  induction buckets as [|[k0 v0] buckets IH]; simpl; [reflexivity|].
  destruct (String.eqb k0 k); simpl.
  - rewrite length_app. simpl. lia.
  - rewrite IH. lia.
Qed.

Lemma grouped_total xs :
  forall buckets,
    list_sum (map (fun kv => List.length (snd kv))
                  (fold_left (fun b x => append_to_bucket (key x) x b) xs buckets))
    = (list_sum (map (fun kv => List.length (snd kv)) buckets) + List.length xs)%nat.
Proof.
  induction xs as [|x xs IH]; intros buckets; simpl; [lia|].
  rewrite IH, append_to_bucket_total. lia.
Qed.

End Grouping.

Lemma first_rule_names rules text :
  In (first_rule rules text) ("other" :: map fst rules).
Proof.
  induction rules as [|[name rx] rules IH]; simpl; [auto|].
  destruct (Re.search false rx text); [auto|]. destruct IH; auto.
Qed.

Lemma histogram_total_counts {A} (buckets : list (string * list A)) :
  Forall (fun kv => snd kv <> []) buckets ->
  histogram_total
    (map (fun kv => (fst kv, Py.llen (snd kv)))
         (filter (fun kv => match snd kv with [] => false | _ => true end) buckets))
  = Z.of_nat (list_sum (map (fun kv => List.length (snd kv)) buckets)).
Proof.
  induction 1 as [|[k v] buckets Hv _ IH]; simpl; [reflexivity|].
  destruct v as [|x v]; [simpl in Hv; congruence|].
  simpl filter. cbn [map histogram_total fold_right fst snd].
  unfold histogram_total in IH. rewrite IH. unfold Py.llen. simpl List.length. lia.
Qed.

(** X17. [categorise_sections] puts every section in exactly one
    bucket: the buckets have distinct names among the five category
    names, none is empty, the bucket of a name holds exactly the
    sections of that category in their original order, and the counts
    written by [run] add up to the number of sections. *)
Theorem categorise_sections_partition (sections : list section) :
  NoDup (map fst (categorise_sections sections))
  /\ incl (map fst (categorise_sections sections)) CATEGORY_NAMES
  /\ (forall k v, In (k, v) (categorise_sections sections) ->
                  v <> [] /\ v = with_key section_category k sections)
  /\ (forall s, In s sections ->
                exists v, In (section_category s, v) (categorise_sections sections)
                          /\ In s v)
  /\ histogram_total (category_counts sections) = Py.llen sections.
Proof.
  destruct (grouped_all section_category sections) as (Hnd & Hent & Hkeys).
  fold (categorise_sections sections) in Hnd, Hent, Hkeys.
  split; [exact Hnd|]. split; [|split; [exact Hent|split]].
  - intros k Hk. apply in_map_iff in Hk. destruct Hk as ([k' v] & <- & Hin).
    destruct (Hent _ _ Hin) as [Hv Heq]. simpl.
    destruct v as [|s v]; [congruence|].
    assert (Hs : In s (with_key section_category k' sections))
      by (rewrite <- Heq; now left).
    apply filter_In in Hs. destruct Hs as [_ Hs]. apply String.eqb_eq in Hs.
    rewrite <- Hs. unfold section_category, categorise_section.
    pose proof (first_rule_names CATEGORY_RULES (Py.join Py.nl (lines s))) as Hn.
    simpl in Hn. unfold CATEGORY_NAMES. simpl. tauto.
  - intros s Hs. pose proof (Hkeys s Hs) as Hk. apply in_map_iff in Hk.
    destruct Hk as ([k v] & Hfst & Hin). simpl in Hfst. subst k.
    exists v. split; [assumption|]. destruct (Hent _ _ Hin) as [_ ->].
    apply filter_In. split; [assumption|apply String.eqb_refl].
  - unfold category_counts. rewrite histogram_total_counts.
    + unfold categorise_sections. rewrite grouped_total. simpl. unfold Py.llen. lia.
    + apply Forall_forall. intros [k v] Hin. exact (proj1 (Hent _ _ Hin)).
Qed.

(* ================================================================== *)
(** * Further properties of the slackbot analysis *)
(* ================================================================== *)



Lemma llen_map {A B} (f : A -> B) l : Py.llen (map f l) = Py.llen l.
Proof. unfold Py.llen. now rewrite length_map. Qed.




Lemma get_set_same k v d : get k (set k v d) = Some v.
Proof.
  induction d as [|[k' v'] d IH]; simpl.
  - now rewrite String.eqb_refl.
  - destruct (String.eqb k' k) eqn:E; simpl; [now rewrite String.eqb_refl|].
    now rewrite E.
Qed.

Lemma get_set_other k k' v d : k <> k' -> get k' (set k v d) = get k' d.
Proof.
  intros Hne. induction d as [|[k0 v0] d IH]; simpl.
  - apply String.eqb_neq in Hne. now rewrite Hne.
  - destruct (String.eqb k0 k) eqn:E; simpl.
    + apply String.eqb_eq in E. subst k0. apply String.eqb_neq in Hne. now rewrite Hne.
    + destruct (String.eqb k0 k'); [reflexivity|exact IH].
Qed.

Lemma bucket_add_append c e b :
  BuildAnalysis.bucket_add c e b = append_to_bucket c e b.
Proof.
  induction b as [|[k v] b IH]; simpl; [reflexivity|].
  destruct (String.eqb k c); [reflexivity|now rewrite IH].
Qed.

Lemma categorize_errors_fold errors :
  BuildAnalysis.categorize_errors errors
  = fold_left (fun b e => append_to_bucket (BuildAnalysis.category_of e) e b) errors [].
Proof.
  unfold BuildAnalysis.categorize_errors. generalize (@nil (string * list
    BuildAnalysis.error_entry)).
  induction errors as [|e errors IH]; intros acc; simpl; [reflexivity|].
  now rewrite bucket_add_append, IH.
Qed.

Lemma histogram_total_buckets {A} (buckets : list (string * list A)) :
  histogram_total (map (fun kv => (fst kv, Py.llen (snd kv))) buckets)
  = Z.of_nat (list_sum (map (fun kv => List.length (snd kv)) buckets)).
Proof.
  unfold histogram_total, Py.llen.
  induction buckets as [|[k v] buckets IH]; [reflexivity|].
  cbn [map fold_right fst snd]. rewrite IH.
  change (list_sum (List.length v :: map (fun kv => List.length (snd kv)) buckets))
    with (List.length v + list_sum (map (fun kv => List.length (snd kv)) buckets))%nat.
  lia.
Qed.

(** X19. When the log has failure lines, the slackbot analysis hands
    exactly one prompt to the model, the one rendered from the entries
    found.  If the model's answer is an object, the result is that
    object with [error_count] set to the number of entries and
    [categories] set to a histogram over the category names whose
    counts add up to that number, every other key kept as the model
    gave it; if the answer is not an object, the analysis raises. *)
Theorem analyze_build_log_with_errors
        (create_focused_prompt : list BuildAnalysis.error_entry -> string)
        (analyze_with_llm : string -> value) (log_content : string)
        (Herrors : BuildAnalysis.find_error_lines_with_context
                     (Py.split_nl log_content) 5 <> []) :
  let errors := BuildAnalysis.find_error_lines_with_context (Py.split_nl log_content) 5 in
  let out := BuildAnalysis.analyze_build_log create_focused_prompt analyze_with_llm
                                             log_content in
  BuildAnalysis.llm_calls out = [create_focused_prompt errors]
  /\ (forall d,
         analyze_with_llm (create_focused_prompt errors) = JObj d ->
         exists d' cats,
           BuildAnalysis.result out = Some (JObj d')
           /\ get "error_count" d' = Some (JInt (Py.llen errors))
           /\ get "categories" d'
              = Some (JObj (map (fun kn => (fst kn, JInt (snd kn))) cats))
           /\ histogram_total cats = Py.llen errors
           /\ incl (map fst cats) CATEGORY_NAMES
           /\ forall k, k <> "error_count" -> k <> "categories" -> get k d' = get k d)
  /\ ((forall d, analyze_with_llm (create_focused_prompt errors) <> JObj d) ->
      BuildAnalysis.result out = None).
Proof.
  intros errors out. subst out. unfold BuildAnalysis.analyze_build_log.
  cbv zeta. fold errors. fold errors in Herrors. clearbody errors.
  destruct errors as [|e0 errs]; [congruence|].
  set (errors := e0 :: errs). cbv iota.
  split; [|split].
  - now destruct (analyze_with_llm (create_focused_prompt errors)).
  - intros d ->. cbn [BuildAnalysis.result].
    set (cats := map (fun kv => (fst kv, Py.llen (snd kv)))
                     (BuildAnalysis.categorize_errors errors)).
    eexists. exists cats. split; [reflexivity|]. split; [|split; [|split; [|split]]].
    + rewrite get_set_other by discriminate. apply get_set_same.
    + rewrite get_set_same. unfold cats. now rewrite map_map.
    + unfold cats. rewrite histogram_total_buckets, categorize_errors_fold, grouped_total.
      unfold Py.llen. reflexivity.
    + unfold cats. rewrite map_map. simpl. intros k Hk. apply in_map_iff in Hk.
      destruct Hk as ([k' v] & <- & Hin). simpl.
      rewrite categorize_errors_fold in Hin.
      destruct (grouped_all BuildAnalysis.category_of errors) as (_ & Hent & _).
      destruct (Hent _ _ Hin) as [Hv Heq]. destruct v as [|e v]; [congruence|].
      assert (He : In e (with_key BuildAnalysis.category_of k' errors))
        by (rewrite <- Heq; now left).
      apply filter_In in He. destruct He as [_ He]. apply String.eqb_eq in He.
      rewrite <- He. unfold BuildAnalysis.category_of.
      pose proof (first_rule_names BuildAnalysis.CATEGORY_RULES
                    (BuildAnalysis.lower (BuildAnalysis.error_line e))) as Hn.
      simpl in Hn. unfold CATEGORY_NAMES. simpl. tauto.
    + intros k H1 H2. rewrite !get_set_other by congruence. reflexivity.
  - intros Hnot. destruct (analyze_with_llm (create_focused_prompt errors)) eqn:E;
      try reflexivity. exfalso. eapply Hnot. reflexivity.
Qed.

Lemma analyze_build_log_with_errors_witness :
  BuildAnalysis.llm_calls
    (BuildAnalysis.analyze_build_log (fun _ => "PROMPT") (fun _ => JArr [])
                                     two_error_text) = ["PROMPT"]
  /\ BuildAnalysis.result
       (BuildAnalysis.analyze_build_log (fun _ => "PROMPT") (fun _ => JArr [])
                                        two_error_text) = None.
Proof.
  pose proof (analyze_build_log_with_errors (fun _ => "PROMPT") (fun _ => JArr [])
                two_error_text ltac:(vm_compute; discriminate)) as (H1 & _ & H3).
  split; [exact H1|]. apply H3. discriminate.
Defined.

(* ================================================================== *)
(** * ANSI stripping and context slices *)
(* ================================================================== *)

Lemma ansi_needs_escape prev s :
  match s with String x _ => x <> ESC | EmptyString => True end ->
  Re.match_here false ANSI_RE prev s = None.
Proof.
  destruct s as [|x s]; [reflexivity|]. intros Hx.
  unfold Re.match_here, ANSI_RE. simpl.
  destruct (Ascii.eqb x "027") eqn:E; [|reflexivity].
  apply Ascii.eqb_eq in E. contradiction.
Qed.

Lemma sub_empty_from_no_escape fuel :
  forall prev s, contains ESC s = false -> Re.sub_empty_from fuel ANSI_RE prev s = s.
Proof.
  induction fuel as [|fuel IH]; intros prev s Hs; simpl; [reflexivity|].
  rewrite ansi_needs_escape.
  - destruct s as [|x s]; [reflexivity|]. simpl in Hs.
    apply orb_false_iff in Hs. destruct Hs as [_ Hs]. now rewrite IH.
  - destruct s as [|x s]; [exact I|]. simpl in Hs.
    apply orb_false_iff in Hs. destruct Hs as [Hx _].
    intros ->. unfold ESC in Hx. now rewrite Ascii.eqb_refl in Hx.
Qed.

Lemma sub_empty_from_length fuel r :
  forall prev s, (String.length (Re.sub_empty_from fuel r prev s) <= String.length s)%nat.
Proof.
  induction fuel as [|fuel IH]; intros prev s; simpl; [lia|].
  assert (Hkeep : (String.length
                     match s with
                     | String x t => String x (Re.sub_empty_from fuel r (Some x) t)
                     | EmptyString => EmptyString
                     end <= String.length s)%nat).
  { destruct s as [|x t]; simpl; [lia|]. specialize (IH (Some x) t). lia. }
  destruct (Re.match_here false r prev s) as [[prev' s']|]; [|exact Hkeep].
  destruct (String.length s' <? String.length s)%nat eqn:E; [|exact Hkeep].
  apply Nat.ltb_lt in E. specialize (IH prev' s'). lia.
Qed.

(** X20. [strip_ansi] returns a text without the escape character
    unchanged, never returns a longer text than it is given, and
    [read_lines] keeps the number of lines. *)
Theorem strip_ansi_is_conservative :
  (forall s, contains ESC s = false -> strip_ansi s = s)
  /\ (forall s, Py.len (strip_ansi s) <= Py.len s)
  /\ (forall raw_lines, Py.llen (read_lines raw_lines) = Py.llen raw_lines).
Proof.
  split; [|split].
  - intros s Hs. unfold strip_ansi, Re.sub_empty. now apply sub_empty_from_no_escape.
  - intros s. unfold strip_ansi, Re.sub_empty, Py.len.
    pose proof (sub_empty_from_length (S (String.length s)) ANSI_RE None s). lia.
  - intros raw_lines. unfold read_lines. apply llen_map.
Qed.

Lemma strip_ansi_is_conservative_witness :
  strip_ansi "a.c:1:1: error: x" = "a.c:1:1: error: x".
Proof.
  apply (proj1 strip_ansi_is_conservative). reflexivity.
Defined.

(** X21. [slice_with_context] returns exactly the lines numbered from
    [max(1, start)] to [min(len(lines), end_)], both included and
    counted from 1: bounds outside the log are clipped, and an empty
    range gives no line. *)
Theorem slice_with_context_lines (log : list string) (start end_ : Z) :
  Py.llen (slice_with_context log start end_)
  = Z.max 0 (Z.min (Py.llen log) end_ - Z.max 1 start + 1)
  /\ forall i, 0 <= i < Py.llen (slice_with_context log start end_) ->
               nth_error (slice_with_context log start end_) (Z.to_nat i)
               = nth_error log (Z.to_nat (Z.max 1 start + i - 1)).
Proof.
  assert (Hlen : Py.llen (slice_with_context log start end_)
                 = Z.max 0 (Z.min (Py.llen log) end_ - Z.max 1 start + 1)).
  { unfold slice_with_context, Py.llen. rewrite length_firstn, length_skipn. lia. }
  split; [exact Hlen|]. intros i Hi. rewrite Hlen in Hi.
  unfold slice_with_context. rewrite nth_error_firstn.
  replace (Z.to_nat i <? Z.to_nat (Z.min (Py.llen log) end_ - (Z.max 1 start - 1)))%nat
    with true by (symmetry; apply Nat.ltb_lt; lia).
  rewrite nth_error_skipn. f_equal. lia.
Qed.

(* ================================================================== *)
(** * Letter case in detection *)
(* ================================================================== *)

Lemma lower_facts c :
  Py.lower (Py.lower c) = Py.lower c
  /\ Py.isword (Py.lower c) = Py.isword c
  /\ Py.isspace (Py.lower c) = Py.isspace c
  /\ (Py.isupper c = true -> Py.upper (Py.lower c) = c /\ Py.upper c = c)
  /\ (Py.isupper c = false -> Py.lower c = c).
Proof.
  destruct c as [[] [] [] [] [] [] [] []]; vm_compute; repeat split; congruence.
Qed.

Lemma chr_matches_fold c x : Re.chr_matches true c (Py.lower x) = Re.chr_matches true c x.
Proof. unfold Re.chr_matches. now rewrite (proj1 (lower_facts x)). Qed.

Lemma cls_matches_fold p x : Re.cls_matches true p (Py.lower x) = Re.cls_matches true p x.
Proof.
  unfold Re.cls_matches. destruct (lower_facts x) as (H1 & _ & _ & H4 & H5).
  destruct (Py.isupper x) eqn:E.
  - destruct (H4 eq_refl) as [Hu Hx]. rewrite H1, Hu, Hx.
    destruct (p x), (p (Py.lower x)); reflexivity.
  - now rewrite !(H5 eq_refl).
Qed.

Lemma word_after_fold s : Re.word_after (fold_case s) = Re.word_after s.
Proof. destruct s as [|x s]; simpl; [reflexivity|apply lower_facts]. Qed.

Lemma word_before_fold prev :
  Re.word_before (option_map Py.lower prev) = Re.word_before prev.
Proof. destruct prev as [x|]; simpl; [apply lower_facts|reflexivity]. Qed.

Lemma many_fold {A B} p (k : @Re.cont A) (k' : @Re.cont B) s :
  (forall q t, matched (k q t) = matched (k' (option_map Py.lower q) (fold_case t))) ->
  forall prev,
    matched (Re.many true p prev s k)
    = matched (Re.many true p (option_map Py.lower prev) (fold_case s) k').
Proof.
  intros Hk. induction s as [|x s IH]; intros prev; cbn [Re.many fold_case];
    [apply (Hk prev "")|].
  rewrite cls_matches_fold. pose proof (Hk prev (String x s)) as Hhere.
  cbn [fold_case] in Hhere.
  destruct (Re.cls_matches true p x); [|exact Hhere].
  specialize (IH (Some x)). cbn [option_map] in IH.
  destruct (Re.many true p (Some x) s k), (Re.many true p (Some (Py.lower x)) (fold_case s) k');
    cbn [matched] in *; try congruence.
Qed.

Lemma exec_fold {A B} r :
  forall prev s (k : @Re.cont A) (k' : @Re.cont B),
    (forall q t, matched (k q t) = matched (k' (option_map Py.lower q) (fold_case t))) ->
    matched (Re.exec true r prev s k)
    = matched (Re.exec true r (option_map Py.lower prev) (fold_case s) k').
Proof.
  induction r as [|c|p|p| | |r1 IH1 r2 IH2|r1 IH1 r2 IH2]; intros prev s k k' Hk;
    cbn [Re.exec].
  - apply Hk.
  - destruct s as [|x s]; cbn [fold_case]; [reflexivity|]. rewrite chr_matches_fold.
    destruct (Re.chr_matches true c x); [apply (Hk (Some x) s)|reflexivity].
  - destruct s as [|x s]; cbn [fold_case]; [reflexivity|]. rewrite cls_matches_fold.
    destruct (Re.cls_matches true p x); [apply (Hk (Some x) s)|reflexivity].
  - now apply many_fold.
  - rewrite word_before_fold, word_after_fold.
    destruct (xorb _ _); [apply Hk|reflexivity].
  - destruct prev; cbn [option_map]; [reflexivity|apply (Hk None s)].
  - apply IH1. intros q t. now apply IH2.
  - specialize (IH1 prev s k k' Hk). specialize (IH2 prev s k k' Hk).
    destruct (Re.exec true r1 prev s k),
             (Re.exec true r1 (option_map Py.lower prev) (fold_case s) k');
      cbn [matched] in *; congruence.
Qed.

Lemma search_from_fold r s :
  forall prev,
    Re.search_from true r (option_map Py.lower prev) (fold_case s)
    = Re.search_from true r prev s.
Proof.
  induction s as [|x s IH]; intros prev.
  - cbn [Re.search_from fold_case]. unfold Re.match_here.
    pose proof (exec_fold r prev "" (fun p t => Some (p, t)) (fun p t => Some (p, t))
                  (fun _ _ => eq_refl)) as H.
    cbn [fold_case] in H.
    destruct (Re.exec true r prev "" _), (Re.exec true r (option_map Py.lower prev) "" _);
      cbn [matched] in *; congruence.
  - cbn [Re.search_from fold_case]. unfold Re.match_here.
    pose proof (exec_fold r prev (String x s) (fun p t => Some (p, t))
                  (fun p t => Some (p, t)) (fun _ _ => eq_refl)) as H.
    cbn [fold_case] in H. specialize (IH (Some x)). cbn [option_map] in IH.
    destruct (Re.exec true r prev (String x s) _),
             (Re.exec true r (option_map Py.lower prev)
                      (String (Py.lower x) (fold_case s)) _);
      cbn [matched] in *; try congruence.
Qed.

Lemma lstrip_fold s : Py.lstrip (fold_case s) = fold_case (Py.lstrip s).
Proof.
  induction s as [|c s IH]; simpl; [reflexivity|].
  rewrite (proj1 (proj2 (proj2 (lower_facts c)))).
  destruct (Py.isspace c); [exact IH|reflexivity].
Qed.

Lemma rstrip_fold s : Py.rstrip (fold_case s) = fold_case (Py.rstrip s).
Proof.
  induction s as [|c s IH]; simpl; [reflexivity|].
  rewrite IH, (proj1 (proj2 (proj2 (lower_facts c)))).
  destruct (Py.rstrip s); simpl; [destruct (Py.isspace c)|]; reflexivity.
Qed.

Lemma pattern_flagged_fold line : pattern_flagged (fold_case line) = pattern_flagged line.
Proof.
  unfold pattern_flagged, Py.strip. rewrite lstrip_fold, rstrip_fold.
  induction ERROR_PATTERNS as [|pat pats IH]; simpl; [reflexivity|].
  rewrite IH. f_equal. unfold Re.search. apply (search_from_fold pat _ None).
Qed.

(** X22. The detector's nine patterns ignore the case of ASCII
    letters: two lines that differ only in letter case are both matched
    or both unmatched, and a line they match is flagged.  The rule for
    CI markers does not ignore case: "FAILED: build target" is flagged
    and its lower-case spelling is not. *)
Theorem detection_ignores_letter_case :
  (forall line line',
      fold_case line = fold_case line' -> pattern_flagged line = pattern_flagged line')
  /\ (forall line, pattern_flagged line = true -> match_error line = true)
  /\ match_error "FAILED: build target" = true
  /\ match_error (fold_case "FAILED: build target") = false.
Proof.
  split; [|split; [|split]].
  - intros line line' H.
    rewrite <- (pattern_flagged_fold line), <- (pattern_flagged_fold line'). now rewrite H.
  - intros line H. unfold match_error. unfold pattern_flagged in H. now rewrite H.
  - vm_compute. reflexivity.
  - vm_compute. reflexivity.
Qed.

Lemma detection_ignores_letter_case_witness :
  pattern_flagged "LD: CANNOT FIND -lfoo" = pattern_flagged "ld: cannot find -LFOO"
  /\ match_error "a.c:1:1: ERROR: x" = true.
Proof.
  split.
  - apply (proj1 detection_ignores_letter_case). reflexivity.
  - apply (proj1 (proj2 detection_ignores_letter_case)). vm_compute. reflexivity.
Defined.

(* ================================================================== *)
(** * Build metadata *)
(* ================================================================== *)

Lemma info_get_snoc k k0 v info :
  info_get k (info ++ [(k0, v)])
  = match info_get k info with
    | Some x => Some x
    | None => if String.eqb k0 k then Some v else None
    end.
Proof.
  induction info as [|[k' v'] info IH]; simpl; [reflexivity|].
  destruct (String.eqb k' k); [reflexivity|exact IH].
Qed.

Lemma scan_line_get pairs line :
  NoDup (map fst pairs) ->
  forall info k,
    info_get k (scan_line pairs line info)
    = match info_get k info with
      | Some v => Some v
      | None =>
          match pattern_of k pairs with
          | Some pat => value_in pat line
          | None => None
          end
      end.
Proof.
  unfold scan_line. induction pairs as [|[k0 p0] pairs IH]; intros Hnd info k; simpl.
  - now destruct (info_get k info).
  - inversion Hnd as [|? ? Hnot Hnd']; subst. rewrite (IH Hnd'). clear IH.
    unfold value_in, info_has.
    destruct (String.eqb k0 k) eqn:E.
    + apply String.eqb_eq in E. subst k0.
      assert (Hpat : pattern_of k pairs = None).
      { clear -Hnot. induction pairs as [|[k' p'] pairs IH]; simpl; [reflexivity|].
        destruct (String.eqb k' k) eqn:E.
        - apply String.eqb_eq in E. subst. exfalso. apply Hnot. now left.
        - apply IH. intros H. apply Hnot. now right. }
      rewrite Hpat. destruct (search_group p0 line) as [g|]; simpl.
      * destruct (info_get k info) eqn:Hk; simpl; [now rewrite Hk|].
        rewrite info_get_snoc, Hk, String.eqb_refl. reflexivity.
      * now destruct (info_get k info).
    + destruct (search_group p0 line) as [g|]; [|reflexivity].
      destruct (matched (info_get k0 info)); [reflexivity|].
      rewrite info_get_snoc, E. now destruct (info_get k info).
Qed.

Lemma scan_lines_get pairs lines :
  NoDup (map fst pairs) ->
  forall info k,
    info_get k (fold_left (fun info line => scan_line pairs line info) lines info)
    = match info_get k info with
      | Some v => Some v
      | None =>
          match pattern_of k pairs with
          | Some pat => first_value pat lines
          | None => None
          end
      end.
Proof.
  intros Hnd. induction lines as [|line lines IH]; intros info k; simpl.
  - destruct (info_get k info); [reflexivity|]. now destruct (pattern_of k pairs).
  - rewrite IH, (scan_line_get pairs line Hnd).
    destruct (info_get k info); [reflexivity|].
    destruct (pattern_of k pairs) as [pat|]; [|reflexivity].
    now destruct (value_in pat line).
Qed.

Lemma scan_line_cons k0 p0 pairs line info :
  scan_line ((k0, p0) :: pairs) line info
  = scan_line pairs line
      match search_group p0 line with
      | Some g => if info_has k0 info then info else info ++ [(k0, Py.strip g)]
      | None => info
      end.
Proof. reflexivity. Qed.

Lemma info_get_none_not_in k info : info_get k info = None -> ~ In k (map fst info).
Proof.
  induction info as [|[k1 v1] info IH]; simpl; [tauto|].
  destruct (String.eqb k1 k) eqn:E; [discriminate|].
  intros H [Heq|Hin]; [subst; now rewrite String.eqb_refl in E|now apply IH].
Qed.

Lemma scan_line_keys pairs line :
  forall info,
    NoDup (map fst info) ->
    NoDup (map fst (scan_line pairs line info))
    /\ incl (map fst (scan_line pairs line info)) (map fst info ++ map fst pairs).
Proof.
  induction pairs as [|[k0 p0] pairs IH]; intros info Hnd.
  - simpl. split; [assumption|]. rewrite app_nil_r. apply incl_refl.
  - rewrite scan_line_cons.
    assert (Hstep : forall info',
               NoDup (map fst info') -> incl (map fst info') (map fst info ++ [k0]) ->
               NoDup (map fst (scan_line pairs line info'))
               /\ incl (map fst (scan_line pairs line info'))
                       (map fst info ++ map fst ((k0, p0) :: pairs))).
    { intros info' Hnd' Hincl. destruct (IH info' Hnd') as [H1 H2]. split; [exact H1|].
      intros k Hk. apply H2 in Hk. apply in_app_or in Hk. apply in_or_app.
      destruct Hk as [Hk|Hk]; [|right; now right].
      apply Hincl in Hk. apply in_app_or in Hk.
      destruct Hk as [Hk|[<-|[]]]; [now left|right; now left]. }
    destruct (search_group p0 line) as [g|].
    + unfold info_has. destruct (info_get k0 info) eqn:Hk; cbn [matched].
      * apply Hstep; [assumption|]. apply incl_appl, incl_refl.
      * apply Hstep.
        -- rewrite map_app. simpl. apply NoDup_app; [assumption|repeat constructor; intros []|].
           intros k Hin [Heq|[]]. subst k. now apply (info_get_none_not_in _ _ Hk).
        -- rewrite map_app. simpl. apply incl_refl.
    + apply Hstep; [assumption|]. apply incl_appl, incl_refl.
Qed.

Lemma extract_build_info_keys lines :
  forall info,
    NoDup (map fst info) -> incl (map fst info) (map fst BUILD_INFO_PAIRS) ->
    NoDup (map fst (fold_left (fun info line => scan_line BUILD_INFO_PAIRS line info)
                              lines info))
    /\ incl (map fst (fold_left (fun info line => scan_line BUILD_INFO_PAIRS line info)
                                lines info))
            (map fst BUILD_INFO_PAIRS).
Proof.
  induction lines as [|line lines IH]; intros info Hnd Hincl; simpl; [auto|].
  destruct (scan_line_keys BUILD_INFO_PAIRS line info Hnd) as [H1 H2].
  apply IH; [exact H1|]. intros k Hk. apply H2 in Hk. apply in_app_or in Hk.
  destruct Hk as [Hk|Hk]; [now apply Hincl|exact Hk].
Qed.

(** X23. [extract_build_info] reads only the first 40 lines.  For each
    of its five keys it records the stripped group of the first of
    those lines that its pattern matches, and nothing when none
    matches; later matches never replace a value.  It records no other
    key, and no key twice. *)
Theorem extract_build_info_first_match (lines : list string) :
  (forall k,
      info_get k (extract_build_info lines)
      = match pattern_of k BUILD_INFO_PAIRS with
        | Some pat => first_value pat (Py.slice_to 40 lines)
        | None => None
        end)
  /\ NoDup (map fst (extract_build_info lines))
  /\ incl (map fst (extract_build_info lines))
          ["component"; "build_id"; "compiler"; "branch"; "runner"]
  /\ (forall more, 40 <= Py.llen lines ->
                   extract_build_info (lines ++ more) = extract_build_info lines).
Proof.
  assert (Hpairs : NoDup (map fst BUILD_INFO_PAIRS)).
  { simpl. repeat constructor; simpl; intuition discriminate. }
  split; [|split; [|split]].
  - intros k. unfold extract_build_info. now rewrite (scan_lines_get _ _ Hpairs).
  - apply extract_build_info_keys; [constructor|intros k []].
  - apply (extract_build_info_keys (Py.slice_to 40 lines) []); [constructor|intros k []].
  - intros more Hlen. unfold extract_build_info, Py.slice_to. simpl (0 <=? 40).
    cbv iota. rewrite firstn_app.
    replace (Z.to_nat 40 - List.length lines)%nat with 0%nat
      by (unfold Py.llen in Hlen; lia).
    now rewrite firstn_O, app_nil_r.
Qed.

Lemma extract_build_info_first_match_witness :
  extract_build_info (repeat "branch: main" 40 ++ ["branch: late"; "runner: r1"])
  = extract_build_info (repeat "branch: main" 40).
Proof.
  apply (proj2 (proj2 (proj2 (extract_build_info_first_match (repeat "branch: main" 40))))).
  vm_compute. discriminate.
Defined.

(* ================================================================== *)
(** * Backend selection *)
(* ================================================================== *)

(** X24. A backend named on the command line wins over the
    environment, and without either the backend is [ollama] with model
    [codellama:7b].  Every backend other than [ollama] for which no
    model is given, [anthropic] included, gets the model [gpt-4o].  A
    backend name outside the three known ones reaches no client: the
    response is empty, so an invocation on a log with sections writes
    the result without root causes and exits with status 1. *)
Theorem backend_selection
        (make_prompt : list section -> list string -> string)
        (c : clients) (json_loads : string -> value + string) :
  (forall b args_model getenv,
      b <> "" -> fst (choose_backend_env_cli (Some b) args_model getenv) = b)
  /\ (forall getenv,
         getenv "HYBRID_BACKEND" = None -> getenv "HYBRID_MODEL" = None ->
         choose_backend_env_cli None None getenv = ("ollama", "codellama:7b"))
  /\ (forall b getenv,
         b <> "" -> b <> "ollama" -> getenv "HYBRID_MODEL" = None ->
         choose_backend_env_cli (Some b) None getenv = (b, "gpt-4o"))
  /\ (forall getenv args_model a raw_lines secs n backend,
         getenv "HYBRID_BACKEND" = Some backend ->
         ~ In (BuildAnalysis.lower backend) ["ollama"; "openai"; "anthropic"] ->
         sections_of a (read_lines raw_lines) = Some (secs, n) -> secs <> [] ->
         run_cli make_prompt c json_loads None args_model getenv a (Some raw_lines)
         = mk_outcome (Exit 1) (Some NO_SUMMARY)
                      [make_prompt secs (read_lines raw_lines)]).
Proof.
  split; [|split; [|split]].
  - intros b args_model getenv Hb. unfold choose_backend_env_cli. simpl.
    apply truthy_true in Hb. now rewrite Hb.
  - intros getenv Hb Hm. unfold choose_backend_env_cli, getenv_or. simpl.
    now rewrite Hb, Hm.
  - intros b getenv Hb Hne Hm. unfold choose_backend_env_cli, getenv_or. simpl.
    apply truthy_true in Hb. rewrite Hb, Hm.
    apply String.eqb_neq in Hne. now rewrite Hne.
  - intros getenv args_model a raw_lines secs n backend Henv Hunknown Hs Hne.
    unfold run_cli, choose_backend_env_cli, getenv_or. rewrite Henv.
    cbn [or_else]. set (b := BuildAnalysis.lower backend) in *.
    set (m := or_else args_model _). unfold run. rewrite Hs.
    destruct secs as [|s secs]; [congruence|].
    unfold call_backend. simpl in Hunknown.
    assert (H1 : String.eqb b "ollama" = false)
      by (apply String.eqb_neq; intros H; apply Hunknown; auto).
    assert (H2 : String.eqb b "openai" = false)
      by (apply String.eqb_neq; intros H; apply Hunknown; auto).
    assert (H3 : String.eqb b "anthropic" = false)
      by (apply String.eqb_neq; intros H; apply Hunknown; auto).
    now rewrite H1, H2, H3.
Qed.

Lemma backend_selection_witness :
  choose_backend_env_cli (Some "anthropic") None empty_env = ("anthropic", "gpt-4o")
  /\ run_cli prompt_stub helpful_clients (loads_only "{}" (JObj [])) None None
             (fun name => if String.eqb name "HYBRID_BACKEND" then Some "Gemini" else None)
             default_args (Some one_error_log)
     = mk_outcome (Exit 1) (Some NO_SUMMARY) ["PROMPT"].
Proof.
  pose proof (backend_selection prompt_stub helpful_clients (loads_only "{}" (JObj [])))
    as (_ & _ & H3 & H4).
  split.
  - apply H3; [discriminate|discriminate|reflexivity].
  - apply (H4 _ None default_args one_error_log
              [mk_section 1 "a.c:1:1: error: x" one_error_log] 17 "Gemini").
    + reflexivity.
    + vm_compute. intuition discriminate.
    + vm_compute. reflexivity.
    + discriminate.
Defined.
